(** * trainGraph.py: a shallow embedding of the training / prediction script

    The script [trainGraph.py] is a top-level Python program: it seeds
    numpy's generator, loads the corpus, dispatches on [model_variation],
    shuffles, builds a Keras model, trains it or loads cached weights, and
    classifies one hard-coded sentence.

    The embedding follows the script statement by statement.
    - Python exceptions are an error type [exn]; a computation that may
      raise returns [result].
    - The effects of the script (console output, the weights file on disk,
      numpy's global generator, calls into Keras) are threaded explicitly
      through a [World]; every effectful statement appends an [event] to
      the world's log, so the order of effects can be stated.
    - The collaborators that are not part of the script ([data_helpers],
      [w2v.train_word2vec], numpy's generator, Keras' numeric routines)
      are parameters of the development. *)

From Stdlib Require Import ZArith QArith Ascii String.
From stdpp Require Import base option list strings gmap pretty.

Local Open Scope string_scope.
Local Open Scope list_scope.
Local Open Scope Z_scope.

(** ** Exceptions and results *)

Inductive exn : Type :=
| ValueError (msg : string)
| KeyError (key : string)
| IndexError (msg : string)
| IOError (msg : string)
| KerasError (msg : string).

Inductive result (A : Type) : Type :=
| Ok (a : A)
| Raise (e : exn).
Arguments Ok {A} a.
Arguments Raise {A} e.

Definition rbind {A B : Type} (r : result A) (k : A → result B) : result B :=
  match r with
  | Ok a => k a
  | Raise e => Raise e
  end.

(** A list comprehension [[f(a) for a in l]]: the elements are evaluated
    left to right and the first exception aborts the whole comprehension. *)
Fixpoint comprehension {A B : Type} (f : A → result B) (l : list A)
  : result (list B) :=
  match l with
  | [] => Ok []
  | a :: l' =>
      rbind (f a) (λ b, rbind (comprehension f l') (λ bs, Ok (b :: bs)))
  end.

(** ** Strings *)

(** [s.split(" ")]: split at every single space; consecutive spaces give
    empty tokens and the result is never empty (["".split(" ") == [""]]). *)
Fixpoint split_space (s : string) : list string :=
  match s with
  | EmptyString => [EmptyString]
  | String c rest =>
      if Ascii.eqb c " "%char then EmptyString :: split_space rest
      else match split_space rest with
           | [] => [String c EmptyString]
           | w :: ws => String c w :: ws
           end
  end.

(** Python's [lst * n]: [n] copies for positive [n], the empty list for
    zero and for negative [n]. *)
Definition list_mul {A : Type} (l : list A) (n : Z) : list A :=
  mjoin (replicate (Z.to_nat n) l).

(** ** Sentence formatting (trainGraph.py, lines 159-173) *)

Definition PAD : string := "<PAD/>".

(** [vocabulary[word]] on a dict: [KeyError] when the key is absent. *)
Definition dict_getitem (vocabulary : gmap string Z) (word : string) : result Z :=
  match vocabulary !! word with
  | Some i => Ok i
  | None => Raise (KeyError word)
  end.

(** [np.hstack] of a list of scalars is the 1-d array of those scalars;
    numpy refuses an empty list. *)
Definition hstack (l : list Z) : result (list Z) :=
  match l with
  | [] => Raise (ValueError "need at least one array to concatenate")
  | _ => Ok l
  end.

(** [a.reshape(1, -1)] of a 1-d array: one row holding the whole array. *)
Definition reshape_1 (a : list Z) : list (list Z) := [a].

Section FormatSentence.
(** [data_helpers.clean_str]: the corpus' text-cleaning transform. *)
Variable clean_str : string → string.

Definition processed_sentence (your_sentence : string) : list string :=
  split_space (clean_str your_sentence).

Definition num_padding (sequence_length : Z) (your_sentence : string) : Z :=
  sequence_length - Z.of_nat (length (processed_sentence your_sentence)).

Definition new_sentence (sequence_length : Z) (your_sentence : string)
  : list string :=
  processed_sentence your_sentence
    ++ list_mul [PAD] (num_padding sequence_length your_sentence).

Definition format_sentence (vocabulary : gmap string Z) (sequence_length : Z)
    (your_sentence : string) : result (list (list Z)) :=
  rbind (comprehension (dict_getitem vocabulary)
           (new_sentence sequence_length your_sentence))
    (λ idx, rbind (hstack idx) (λ v_list, Ok (reshape_1 v_list))).
End FormatSentence.

(** ** numpy arrays as lists *)

(** [np.arange(n)] *)
Definition arange (n : nat) : list Z := Z.of_nat <$> seq 0 n.

(** [a[i]] with an integer index on the first axis: a negative index counts
    from the end, anything outside [-n, n) raises [IndexError]. *)
Definition np_index {A : Type} (a : list A) (i : Z) : result A :=
  let n := Z.of_nat (length a) in
  let j := if i <? 0 then i + n else i in
  if (0 <=? j) && (j <? n) then
    match a !! Z.to_nat j with
    | Some v => Ok v
    | None => Raise (IndexError "index out of bounds")
    end
  else Raise (IndexError "index out of bounds").

(** [a[idx]] with an integer array [idx]: row [k] of the result is
    [a[idx[k]]]. *)
Definition fancy_index {A : Type} (a : list A) (idx : list Z) : result (list A) :=
  comprehension (np_index a) idx.

(** Position of the first maximum of the rest of a row, given the best
    value so far, its position and the position of the next element. *)
Fixpoint argmax_from (best : Z) (best_pos pos : Z) (row : list Z) : Z :=
  match row with
  | [] => best_pos
  | v :: row' =>
      if best <? v then argmax_from v pos (pos + 1) row'
      else argmax_from best best_pos (pos + 1) row'
  end.

(** [row.argmax()]: numpy refuses an empty row. *)
Definition argmax (row : list Z) : result Z :=
  match row with
  | [] => Raise (ValueError "attempt to get argmax of an empty sequence")
  | v :: row' => Ok (argmax_from v 0 1 row')
  end.

(** [lst[0]] on a Python list. *)
Definition list_getitem_0 {A : Type} (l : list A) : result A :=
  match l with
  | [] => Raise (IndexError "list index out of range")
  | a :: _ => Ok a
  end.

(** ** Floating-point outputs

    A finite float denotes a rational and numpy compares finite floats
    exactly; [0.5] is representable.  Every comparison with NaN is false. *)
Inductive float : Type :=
| Finite (q : Q)
| NaN.

Definition float_lt (a b : float) : bool :=
  match a, b with
  | Finite p, Finite q => negb (Qle_bool q p)
  | _, _ => false
  end.

(** ** Configuration: the module-level constants (lines 63-85) *)

Record config : Type := {
  model_variation : string;
  sequence_length : Z;
  embedding_dim : Z;
  filter_sizes : list Z;
  num_filters : Z;
  dropout_prob : Q * Q;
  hidden_dims : Z;
  batch_size : Z;
  num_epochs : Z;
  val_split : Q;
  min_word_count : Z;
  context : Z;
  ACTION : string;
  weights_file : string;
  sentence : string
}.

(** The constants as the script sets them. *)
Definition script_config : config := {|
  model_variation := "CNN-non-static";
  sequence_length := 56;
  embedding_dim := 20;
  filter_sizes := [3; 4];
  num_filters := 3;
  dropout_prob := ((1 # 4)%Q, (1 # 2)%Q);
  hidden_dims := 100;
  batch_size := 32;
  num_epochs := 100;
  val_split := (1 # 10)%Q;
  min_word_count := 1;
  context := 10;
  ACTION := "predict";
  weights_file := "models/weights_file";
  sentence := "exhilarating, funny and fun."
|}.

(** ** The convolution graph (lines 115-132) *)

(** Keras tensors, as the expression that builds them. *)
#[warnings="-register-all"]
Inductive tensor : Type :=
| Input (shape : Z * Z)
| Convolution1D (nb_filter filter_length : Z) (border_mode activation : string)
    (subsample_length : Z) (inp : tensor)
| MaxPooling1D (pool_length : Z) (inp : tensor)
| Flatten (inp : tensor)
| Merge (mode : string) (inputs : list tensor).

Record graph_model : Type := Model { input : tensor; output : tensor }.

(** One pass of the loop body for filter width [fsz]: [convs.append(flatten)]. *)
Definition conv_branch (cfg : config) (graph_in : tensor) (convs : list tensor)
    (fsz : Z) : list tensor :=
  let conv := Convolution1D (num_filters cfg) fsz "valid" "relu" 1 graph_in in
  let pool := MaxPooling1D 2 conv in
  let flatten := Flatten pool in
  convs ++ [flatten].

Definition graph_in (cfg : config) : tensor :=
  Input (sequence_length cfg, embedding_dim cfg).

(** The list [convs] once the loop over [filter_sizes] has finished. *)
Definition convs (cfg : config) : list tensor :=
  foldl (conv_branch cfg (graph_in cfg)) [] (filter_sizes cfg).

Definition build_graph (cfg : config) : result graph_model :=
  rbind (if 1 <? Z.of_nat (length (filter_sizes cfg))
         then Ok (Merge "concat" (convs cfg))
         else list_getitem_0 (convs cfg))
    (λ out, Ok (Model (graph_in cfg) out)).

(** ** The script *)

(** *** Collaborators

    - [vec]: an embedding vector; [model_params]: the trainable parameters
      of the whole Keras model; [rng_state]: the state of numpy's global
      generator.
    - [seed_state s]: the generator state after [np.random.seed(s)]; it
      depends on [s] only.
    - [np_permutation]: [np.random.permutation] on an array, as a function
      of the generator state.
    - [clean_str]: [data_helpers.clean_str].
    - [train_word2vec]: [w2v.train_word2vec]; it returns the list holding
      the embedding matrix.  It may draw from numpy's global generator, so
      it takes the generator state and returns the new one; beyond that it
      is a function of its arguments.
    - Modelled from the spec: the trainer's cache, which [w2v.py] keeps on
      disk and the script itself never reads.  [w2v_store] is what that
      cache holds and [train_word2vec_cache] what a call of
      [train_word2vec] leaves in it: the trainer writes its trained model
      there on first run, and a cache hit returns the vectors the training
      run produced, so what the call returns does not depend on the
      cache. *)
Class Externals : Type := {
  vec : Type;
  model_params : Type;
  rng_state : Type;
  seed_state : Z → rng_state;
  np_permutation : rng_state → list Z → list Z * rng_state;
  clean_str : string → string;
  train_word2vec :
    rng_state → list (list Z) → list string → Z → Z → Z →
    list (list vec) * rng_state;
  w2v_store : Type;
  train_word2vec_cache :
    w2v_store → list (list Z) → list string → Z → Z → Z → w2v_store
}.

Section Script.
Context {E : Externals}.

(** The input array [x]: token indices as loaded, or rows of embedding
    vectors once 'CNN-static' has substituted them. *)
Inductive ndarray_x : Type :=
| IndexArray (rows : list (list Z))
| VectorArray (rows : list (list vec)).

(** [Embedding(...)], [Dropout(...)], ... as added to the [Sequential]
    model.  A Keras layer is trainable unless it is constructed with
    [trainable=False]. *)
Inductive layer : Type :=
| EmbeddingLayer (input_dim output_dim input_length : Z)
    (weights : option (list (list vec))) (trainable : bool)
| Dropout (p : Q) (input_shape : option (Z * Z))
| GraphLayer (g : graph_model)
| Dense (output_dim : Z)
| Activation (name : string).

Definition Embedding (input_dim output_dim input_length : Z)
    (weights : option (list (list vec))) : layer :=
  EmbeddingLayer input_dim output_dim input_length weights true.

Record SGD : Type := {
  lr : Q; momentum : Q; decay : Q; nesterov : bool
}.

Record compile_args : Type := {
  loss : string; optimizer : SGD; metrics : list string
}.

Record Sequential : Type := {
  layers : list layer;
  compiled : option compile_args;
  params : model_params
}.

Record fit_args : Type := {
  fit_batch_size : Z; nb_epoch : Z; validation_split : Q; verbose : Z
}.

(** Keras' own routines.
    - [keras_build]: what Keras does while the layers are called and
      added: it infers and checks the shapes and draws the initial
      parameters from numpy's global generator.  It raises for a stack it
      rejects, such as a filter width that leaves no pooled position for
      [Flatten].
    - [keras_fit]: [model.fit], which draws its batches from the
      generator.
    - [keras_predict]: [model.predict]; it raises when the array does not
      match the input shape of the model. *)
Class KerasBackend : Type := {
  keras_build :
    rng_state → list layer → result (model_params * rng_state);
  keras_fit :
    rng_state → Sequential → ndarray_x → list Z → fit_args →
    model_params * rng_state;
  keras_predict : Sequential → list (list Z) → result float
}.
Context {K : KerasBackend}.

(** *** The world of a run *)

Inductive event : Type :=
| EPrint (line : string)
| ELoadData
| ETrainWord2Vec
| EPermutation (drawn : list Z)
| EBuildModel (model_layers : list layer)
| ELoadWeights (path : string) (loaded : model_params)
| EFit (x_train : ndarray_x) (y_train : list Z) (trained : model_params)
| ESaveWeights (path : string) (saved : model_params)
| EPredict (used : model_params) (v_list : list (list Z)).

(** [fs]: the files holding model weights, by path; [cache]: the
    embedding trainer's cache on disk; [rng]: numpy's global generator;
    [log]: the effects so far, oldest first. *)
Record World : Type := {
  fs : gmap string model_params;
  cache : w2v_store;
  rng : rng_state;
  log : list event
}.

Definition M (A : Type) : Type := World → result A * World.

Definition ret {A : Type} (a : A) : M A := λ w, (Ok a, w).

Definition bind {A B : Type} (m : M A) (k : A → M B) : M B :=
  λ w, match m w with
       | (Ok a, w') => k a w'
       | (Raise e, w') => (Raise e, w')
       end.

Definition raise {A : Type} (e : exn) : M A := λ w, (Raise e, w).

Definition lift {A : Type} (r : result A) : M A := λ w, (r, w).

Definition emit (e : event) : M unit :=
  λ w, (Ok tt, {| fs := fs w; cache := cache w; rng := rng w;
                  log := log w ++ [e] |}).

Definition print (line : string) : M unit := emit (EPrint line).

Definition get_rng : M rng_state := λ w, (Ok (rng w), w).

Definition put_rng (r : rng_state) : M unit :=
  λ w, (Ok tt, {| fs := fs w; cache := cache w; rng := r; log := log w |}).

Definition get_fs : M (gmap string model_params) := λ w, (Ok (fs w), w).

Definition put_fs (f : gmap string model_params) : M unit :=
  λ w, (Ok tt, {| fs := f; cache := cache w; rng := rng w; log := log w |}).

Definition get_cache : M w2v_store := λ w, (Ok (cache w), w).

Definition put_cache (c : w2v_store) : M unit :=
  λ w, (Ok tt, {| fs := fs w; cache := c; rng := rng w; log := log w |}).

Notation "x <- c ;; k" := (bind c (λ x, k))
  (at level 20, c at level 99, k at level 200, only parsing).
Notation "' p <- c ;; k" := (bind c (λ x, match x with p => k end))
  (at level 20, p pattern, c at level 99, k at level 200, only parsing).
Notation "c ;; k" := (bind c (λ _, k))
  (at level 100, k at level 200, right associativity, only parsing).

(** [np.random.seed(s)] *)
Definition np_random_seed (s : Z) : M unit := put_rng (seed_state s).

(** [np.random.permutation(a)] *)
Definition np_random_permutation (a : list Z) : M (list Z) :=
  r <- get_rng ;;
  let '(p, r') := np_permutation r a in
  put_rng r' ;;
  emit (EPermutation p) ;;
  ret p.

(** [os.path.exists(path)] *)
Definition os_path_exists (path : string) : M bool :=
  f <- get_fs ;;
  ret (bool_decide (is_Some (f !! path))).

(** *** Data preparation (lines 55-108) *)

(** What [data_helpers.load_data()] returns:
    [(x, y, vocabulary, vocabulary_inv)]. *)
Definition loaded_data : Type :=
  list (list Z) * list (list Z) * gmap string Z * list string.

(** The corpus read by [load_data] is an argument of the run; loading
    reads files and draws nothing from numpy's generator. *)
Definition load_data (data : loaded_data) : M loaded_data :=
  emit ELoadData ;; ret data.

(** [embedding_weights[0][x]]: every token index is replaced by its row of
    the embedding matrix. *)
Definition substitute_vectors (embedding_weights : list (list vec))
    (x : list (list Z)) : result (list (list vec)) :=
  rbind (list_getitem_0 embedding_weights)
    (λ matrix, comprehension (fancy_index matrix) x).

(** The call [train_word2vec(x, vocabulary_inv, ...)]. *)
Definition call_train_word2vec (x : list (list Z)) (vocabulary_inv : list string)
    (num_features min_count ctx : Z) : M (list (list vec)) :=
  r <- get_rng ;;
  let '(weights, r') :=
    train_word2vec r x vocabulary_inv num_features min_count ctx in
  put_rng r' ;;
  c <- get_cache ;;
  put_cache (train_word2vec_cache c x vocabulary_inv num_features min_count ctx) ;;
  emit ETrainWord2Vec ;;
  ret weights.

(** Lines 94-101. *)
Definition select_variation (cfg : config) (x : list (list Z))
    (vocabulary_inv : list string)
  : M (ndarray_x * option (list (list vec))) :=
  let mv := model_variation cfg in
  if String.eqb mv "CNN-non-static" || String.eqb mv "CNN-static" then
    embedding_weights <-
      call_train_word2vec x vocabulary_inv (embedding_dim cfg)
        (min_word_count cfg) (context cfg) ;;
    if String.eqb mv "CNN-static" then
      x' <- lift (substitute_vectors embedding_weights x) ;;
      ret (VectorArray x', Some embedding_weights)
    else ret (IndexArray x, Some embedding_weights)
  else if String.eqb mv "CNN-rand" then ret (IndexArray x, None)
  else raise (ValueError "Unknown model variation").

(** [x[idx]] on either kind of input array. *)
Definition x_getitem (x : ndarray_x) (idx : list Z) : result ndarray_x :=
  match x with
  | IndexArray rows => rbind (fancy_index rows idx) (λ r, Ok (IndexArray r))
  | VectorArray rows => rbind (fancy_index rows idx) (λ r, Ok (VectorArray r))
  end.

(** Lines 104-106. *)
Definition shuffle_data (x : ndarray_x) (y : list (list Z))
  : M (list Z * ndarray_x * list Z) :=
  shuffle_indices <- np_random_permutation (arange (length y)) ;;
  x_shuffled <- lift (x_getitem x shuffle_indices) ;;
  y_rows <- lift (fancy_index y shuffle_indices) ;;
  y_shuffled <- lift (comprehension argmax y_rows) ;;
  ret (shuffle_indices, x_shuffled, y_shuffled).

Record prepared : Type := {
  x_prepared : ndarray_x;
  embedding_weights : option (list (list vec));
  vocabulary : gmap string Z;
  shuffle_indices : list Z;
  x_shuffled : ndarray_x;
  y_shuffled : list Z
}.

Definition data_preparation (cfg : config) (data : loaded_data) : M prepared :=
  np_random_seed 2 ;;
  print ("Model variation is " +:+ model_variation cfg) ;;
  print "Loading data..." ;;
  ' (x, y, vocabulary, vocabulary_inv) <- load_data data ;;
  ' (x, embedding_weights) <- select_variation cfg x vocabulary_inv ;;
  ' (shuffle_indices, x_shuffled, y_shuffled) <- shuffle_data x y ;;
  print ("Vocabulary Size: " +:+ pretty (size vocabulary)) ;;
  ret {| x_prepared := x; embedding_weights := embedding_weights;
         vocabulary := vocabulary; shuffle_indices := shuffle_indices;
         x_shuffled := x_shuffled; y_shuffled := y_shuffled |}.

(** *** The sequential model (lines 135-147) *)

(** [model.add(layer)] *)
Definition add (model : list layer) (l : layer) : list layer := model ++ [l].

Definition model_layers (cfg : config) (vocabulary : gmap string Z)
    (embedding_weights : option (list (list vec))) (graph : graph_model)
  : list layer :=
  let model := [] in
  let model :=
    if negb (String.eqb (model_variation cfg) "CNN-static") then
      add model (Embedding (Z.of_nat (size vocabulary)) (embedding_dim cfg)
                   (sequence_length cfg) embedding_weights)
    else model in
  let model :=
    add model (Dropout (fst (dropout_prob cfg))
                 (Some (sequence_length cfg, embedding_dim cfg))) in
  let model := add model (GraphLayer graph) in
  let model := add model (Dense (hidden_dims cfg)) in
  let model := add model (Dropout (snd (dropout_prob cfg)) None) in
  let model := add model (Activation "relu") in
  let model := add model (Dense 1) in
  add model (Activation "sigmoid").

Definition opt : SGD :=
  {| lr := (1 # 100)%Q; momentum := (8 # 10)%Q; decay := (1 # 1000000)%Q;
     nesterov := true |}.

(** Keras checks the stack and draws the initial parameters of the layers
    from numpy's global generator; nothing lies between the construction
    of the graph and the assembly of the model, so a stack Keras rejects
    ends the run here. *)
Definition build_model (cfg : config) (vocabulary : gmap string Z)
    (embedding_weights : option (list (list vec))) (graph : graph_model)
  : M Sequential :=
  let ls := model_layers cfg vocabulary embedding_weights graph in
  r <- get_rng ;;
  ' (p, r') <- lift (keras_build r ls) ;;
  put_rng r' ;;
  emit (EBuildModel ls) ;;
  ret {| layers := ls;
         compiled := Some {| loss := "binary_crossentropy"; optimizer := opt;
                             metrics := ["accuracy"] |};
         params := p |}.

Definition with_params (model : Sequential) (p : model_params) : Sequential :=
  {| layers := layers model; compiled := compiled model; params := p |}.

(** [model.load_weights(path)] *)
Definition load_weights (model : Sequential) (path : string) : M Sequential :=
  f <- get_fs ;;
  match f !! path with
  | Some p => emit (ELoadWeights path p) ;; ret (with_params model p)
  | None => raise (IOError path)
  end.

(** [model.fit(x, y, ...)]: batches are drawn with numpy's generator. *)
Definition fit (model : Sequential) (x : ndarray_x) (y : list Z)
    (args : fit_args) : M Sequential :=
  r <- get_rng ;;
  let '(p, r') := keras_fit r model x y args in
  put_rng r' ;;
  emit (EFit x y p) ;;
  ret (with_params model p).

(** [model.save_weights(path, overwrite=True)]: whatever was stored at
    [path] is replaced. *)
Definition save_weights (model : Sequential) (path : string) : M unit :=
  f <- get_fs ;;
  put_fs (<[path := params model]> f) ;;
  emit (ESaveWeights path (params model)).

(** [model.predict(v_list)] *)
Definition predict (model : Sequential) (v_list : list (list Z)) : M float :=
  emit (EPredict (params model) v_list) ;;
  lift (keras_predict model v_list).

(** *** Training or loading (lines 150-156) *)

Definition training (cfg : config) (model : Sequential) (x_shuffled : ndarray_x)
    (y_shuffled : list Z) : M Sequential :=
  cached <- (if String.eqb (ACTION cfg) "predict"
             then os_path_exists (weights_file cfg)
             else ret false) ;;
  if (cached : bool) then load_weights model (weights_file cfg)
  else
    model <- fit model x_shuffled y_shuffled
               {| fit_batch_size := batch_size cfg; nb_epoch := num_epochs cfg;
                  validation_split := val_split cfg; verbose := 2 |} ;;
    print "dumping weights to file..." ;;
    save_weights model (weights_file cfg) ;;
    ret model.

(** *** Prediction (lines 176-181) *)

Definition half : float := Finite (1 # 2)%Q.

(** [mood = "Negative" if probs < 0.5 else "Positive"] *)
Definition mood (probs : float) : string :=
  if float_lt probs half then "Negative" else "Positive".

Definition newline : string := String (ascii_of_nat 10) EmptyString.

(** [print(a, b, c, d)] separates its arguments by single spaces. *)
Definition verdict_line (sentence mood : string) : string :=
  sentence +:+ " " +:+ (newline +:+ "is") +:+ " " +:+ mood +:+ " " +:+ "sentence".

Definition prediction (cfg : config) (vocabulary : gmap string Z)
    (model : Sequential) : M unit :=
  if String.eqb (ACTION cfg) "predict" then
    v_list <- lift (format_sentence clean_str vocabulary (sequence_length cfg)
                      (sentence cfg)) ;;
    probs <- predict model v_list ;;
    print (verdict_line (sentence cfg) (mood probs))
  else ret tt.

(** *** The whole script *)

(** Everything up to the compiled model (lines 55-147). *)
Definition setup (cfg : config) (data : loaded_data) : M (prepared * Sequential) :=
  p <- data_preparation cfg data ;;
  graph <- lift (build_graph cfg) ;;
  model <- build_model cfg (vocabulary p) (embedding_weights p) graph ;;
  ret (p, model).

Definition main (cfg : config) (data : loaded_data) : M unit :=
  ' (p, model) <- setup cfg data ;;
  model <- training cfg model (x_shuffled p) (y_shuffled p) ;;
  prediction cfg (vocabulary p) model.

(** *** Vocabulary of the statements *)

(** The rows of the input array, whichever kind it is. *)
Definition x_rows (x : ndarray_x) : list (list Z + list vec) :=
  match x with
  | IndexArray rows => inl <$> rows
  | VectorArray rows => inr <$> rows
  end.

(** Keras holds out the trailing rows of the arrays handed to [fit] for
    validation; [cut] is the row where the held-out part starts. *)
Definition train_validation (cut : nat) (p : prepared)
  : (list (list Z + list vec) * list Z) * (list (list Z + list vec) * list Z) :=
  ((take cut (x_rows (x_shuffled p)), take cut (y_shuffled p)),
   (drop cut (x_rows (x_shuffled p)), drop cut (y_shuffled p))).

Definition is_embedding (l : layer) : bool :=
  match l with
  | EmbeddingLayer _ _ _ _ _ => true
  | _ => false
  end.

Definition is_fit (e : event) : bool :=
  match e with
  | EFit _ _ _ => true
  | _ => false
  end.

Definition is_predict (e : event) : bool :=
  match e with
  | EPredict _ _ => true
  | _ => false
  end.

(** A stretch of a run that touches no weights file and neither trains
    nor predicts: the weights files are the same afterwards and the log
    has grown by events other than [EFit] and [EPredict]. *)
Definition quiet (w w' : World) : Prop :=
  fs w' = fs w
  ∧ ∃ events, log w' = log w ++ events
              ∧ Forall (λ e, is_fit e = false ∧ is_predict e = false) events.

(** A computation that reads and writes no weights file, neither trains
    nor predicts, and whose outcome depends on the world only through the
    state of the generator; it may write to the trainer's cache. *)
Definition framed {A : Type} (m : M A) : Prop :=
  ∀ g, ∃ (r : result A) (g' : rng_state) (events : list event)
         (written : w2v_store → w2v_store),
    Forall (λ e, is_fit e = false ∧ is_predict e = false) events
    ∧ ∀ w, rng w = g →
        m w = (r, {| fs := fs w; cache := written (cache w); rng := g';
                     log := log w ++ events |}).

(** What [train_word2vec] returns when the script calls it: the generator
    is then as [np.random.seed(2)] left it. *)
Definition word2vec_run (cfg : config) (x : list (list Z))
    (vocabulary_inv : list string) : list (list vec) * rng_state :=
  train_word2vec (seed_state 2) x vocabulary_inv (embedding_dim cfg)
    (min_word_count cfg) (context cfg).

(** A computation that changes the trainer's cache only as [R] allows. *)
Definition cache_rel (R : w2v_store → w2v_store → Prop) {A : Type} (m : M A)
  : Prop :=
  ∀ w r w', m w = (r, w') → R (cache w) (cache w').

(** The arguments the script passes to [model.fit]. *)
Definition script_fit_args (cfg : config) : fit_args :=
  {| fit_batch_size := batch_size cfg; nb_epoch := num_epochs cfg;
     validation_split := val_split cfg; verbose := 2 |}.

(** The three variations the script knows. *)
Definition known_variation (mv : string) : bool :=
  String.eqb mv "CNN-non-static" || String.eqb mv "CNN-static"
  || String.eqb mv "CNN-rand".

End Script.

(** ** A small instance

    A two-sentence corpus and collaborators that compute, used to run the
    script on concrete inputs. *)

Definition toy_externals : Externals := {|
  vec := Z;
  model_params := nat;
  rng_state := Z;
  seed_state := λ s, s;
  np_permutation := λ r a, (reverse a, r + 1);
  clean_str := λ s, s;
  train_word2vec := λ (r : Z) x vocabulary_inv dim min_count ctx,
    ([(λ _, 7) <$> vocabulary_inv], r + 10);
  w2v_store := list (list string);
  train_word2vec_cache := λ c x vocabulary_inv dim min_count ctx,
    vocabulary_inv :: c
|}.

Definition toy_build (r : Z) (ls : list (@layer toy_externals))
  : result (nat * Z) := Ok (0%nat, r + 1).

Definition toy_fit (r : Z) (model : @Sequential toy_externals)
    (x : @ndarray_x toy_externals) (y : list Z) (args : fit_args) : nat * Z :=
  (S (params model), r + 1).

(** The toy [model.predict] checks its input as Keras does: the model must
    start with an embedding layer and every row must have its
    [input_length]. *)
Definition toy_predict (model : @Sequential toy_externals)
    (v_list : list (list Z)) : result float :=
  match layers model with
  | EmbeddingLayer _ _ input_length _ _ :: _ =>
      if forallb (λ row, Z.of_nat (length row) =? input_length) v_list
      then Ok (Finite (3 # 4)%Q)
      else Raise (KerasError "Error when checking model input")
  | _ => Raise (KerasError "Error when checking model input")
  end.

Definition toy_keras : @KerasBackend toy_externals :=
  @Build_KerasBackend toy_externals toy_build toy_fit toy_predict.

Definition toy_vocabulary : gmap string Z :=
  <["good" := 0]> (<["movie" := 1]> (<["bad" := 2]> (<[PAD := 3]> ∅))).

Definition toy_data : @loaded_data :=
  ([[0; 1; 3]; [2; 1; 3]], [[0; 1]; [1; 0]], toy_vocabulary,
   ["good"; "movie"; "bad"; PAD]).

Definition toy_config (mv action : string) : config := {|
  model_variation := mv;
  sequence_length := 3;
  embedding_dim := 1;
  filter_sizes := [1; 2];
  num_filters := 3;
  dropout_prob := ((1 # 4)%Q, (1 # 2)%Q);
  hidden_dims := 4;
  batch_size := 2;
  num_epochs := 1;
  val_split := (1 # 10)%Q;
  min_word_count := 1;
  context := 10;
  ACTION := action;
  weights_file := "models/weights_file";
  sentence := "good movie"
|}.

Definition toy_single_width (mv action : string) : config := {|
  model_variation := mv;
  sequence_length := 3;
  embedding_dim := 1;
  filter_sizes := [2];
  num_filters := 3;
  dropout_prob := ((1 # 4)%Q, (1 # 2)%Q);
  hidden_dims := 4;
  batch_size := 2;
  num_epochs := 1;
  val_split := (1 # 10)%Q;
  min_word_count := 1;
  context := 10;
  ACTION := action;
  weights_file := "models/weights_file";
  sentence := "good ugh"
|}.

Definition toy_params (n : nat) : @model_params toy_externals := n.

Definition toy_files : gmap string (@model_params toy_externals) :=
  <["models/weights_file" := toy_params 5]> ∅.

Definition toy_model : @Sequential toy_externals :=
  @Build_Sequential toy_externals
    [@EmbeddingLayer toy_externals 4 1 3 None true] None 0%nat.

Definition toy_world (files : gmap string (@model_params toy_externals))
  : @World toy_externals :=
  @Build_World toy_externals files [] 0 [].

(** The outcomes of the set-up stage on the small instance, evaluated. *)
Definition toy_setup_static :=
  Eval vm_compute in
    setup (K:=toy_keras) (toy_config "CNN-static" "predict") toy_data (toy_world ∅).

Definition toy_setup_non_static :=
  Eval vm_compute in
    setup (K:=toy_keras) (toy_config "CNN-non-static" "predict") toy_data
      (toy_world ∅).

Definition toy_setup_rand :=
  Eval vm_compute in
    setup (K:=toy_keras) (toy_config "CNN-rand" "predict") toy_data (toy_world ∅).

Definition toy_setup_train :=
  Eval vm_compute in
    setup (K:=toy_keras) (toy_config "CNN-rand" "train") toy_data
      (toy_world toy_files).

Definition toy_preparation :=
  Eval vm_compute in
    data_preparation (toy_config "CNN-rand" "predict") toy_data (toy_world ∅).

Definition toy_no_width (mv action : string) : config := {|
  model_variation := mv;
  sequence_length := 3;
  embedding_dim := 1;
  filter_sizes := [];
  num_filters := 3;
  dropout_prob := ((1 # 4)%Q, (1 # 2)%Q);
  hidden_dims := 4;
  batch_size := 2;
  num_epochs := 1;
  val_split := (1 # 10)%Q;
  min_word_count := 1;
  context := 10;
  ACTION := action;
  weights_file := "models/weights_file";
  sentence := "good movie"
|}.

Definition toy_preparation_no_width :=
  Eval vm_compute in
    data_preparation (toy_no_width "CNN-rand" "predict") toy_data (toy_world ∅).

Definition toy_setup_cached :=
  Eval vm_compute in
    setup (K:=toy_keras) (toy_config "CNN-rand" "predict") toy_data
      (toy_world toy_files).

Definition toy_first_run :=
  Eval vm_compute in
    main (K:=toy_keras) (toy_config "CNN-rand" "predict") toy_data (toy_world ∅).

(** The number of spaces in a string. *)
Fixpoint count_spaces (s : string) : nat :=
  match s with
  | EmptyString => 0
  | String c rest =>
      if Ascii.eqb c " "%char then S (count_spaces rest) else count_spaces rest
  end.

(** * Properties *)

(** ** Results and comprehensions *)

Lemma comprehension_ok {A B : Type} (f : A → result B) (l : list A) (bs : list B) :
  comprehension f l = Ok bs ↔ Forall2 (λ a b, f a = Ok b) l bs.
Proof.
  revert bs. induction l as [|a l IH]; intros bs; simpl.
  - split.
    + intros [= <-]. constructor.
    + intros H. inversion H. reflexivity.
  - destruct (f a) as [b|e] eqn:Hfa; simpl.
    + destruct (comprehension f l) as [bs'|e] eqn:Hl; simpl.
      * split.
        -- intros [= <-]. constructor; [assumption | by apply IH].
        -- intros H. inversion H as [|? b' ? bs'' Hb Hrest]; subst.
           apply IH in Hrest. congruence.
      * split; [discriminate |].
        intros H. inversion H as [|? b' ? bs'' Hb Hrest]; subst.
        apply IH in Hrest. discriminate.
    + split; [discriminate |].
      intros H. inversion H; subst. congruence.
Qed.

Lemma comprehension_raise {A B : Type} (f : A → result B) (l : list A) (e : exn) :
  comprehension f l = Raise e ↔
  ∃ pre a post, l = pre ++ a :: post
                ∧ Forall (λ u, ∃ b, f u = Ok b) pre ∧ f a = Raise e.
Proof.
  induction l as [|a l IH]; simpl.
  - split; [discriminate |].
    intros (pre & a & post & Hl & _). by destruct pre.
  - split.
    + destruct (f a) as [b|e'] eqn:Hfa; simpl.
      * destruct (comprehension f l) as [bs'|e'] eqn:Hl; simpl; [discriminate |].
        intros [= ->].
        destruct (proj1 IH eq_refl) as (pre & a' & post & -> & Hpre & Ha').
        exists (a :: pre), a', post. split; [done |]. split; [| done].
        constructor; eauto.
      * intros [= ->]. exists [], a, l. done.
    + intros (pre & a' & post & Heq & Hpre & Ha').
      destruct pre as [|u pre]; simpl in Heq; injection Heq as <- ->.
      * by rewrite Ha'.
      * inversion Hpre as [|? ? [b Hb] Hpre']; subst. rewrite Hb. simpl.
        rewrite (proj2 IH); [done |]. exists pre, a', post. done.
Qed.

Lemma comprehension_functional {A B : Type} (R : A → B → Prop) (l : list A)
    (bs bs' : list B) :
  (∀ a b b', R a b → R a b' → b = b') →
  Forall2 R l bs → Forall2 R l bs' → bs = bs'.
Proof.
  intros HR H. revert bs'. induction H as [|a b l bs Hab _ IH]; intros bs' H'.
  - by inversion H'.
  - inversion H' as [|? b' ? bs'' Hab' Hrest]; subst.
    f_equal; [by eapply HR | by apply IH].
Qed.

Lemma comprehension_length {A B : Type} (f : A → result B) (l : list A) (bs : list B) :
  comprehension f l = Ok bs → length bs = length l.
Proof. intros H. apply comprehension_ok in H. symmetry. by eapply Forall2_length. Qed.

Lemma comprehension_total {A B : Type} (f : A → result B) (l : list A) :
  Forall (λ a, ∃ b, f a = Ok b) l → ∃ bs, comprehension f l = Ok bs.
Proof.
  induction 1 as [|a l [b Hb] _ [bs Hbs]]; simpl.
  - by exists [].
  - exists (b :: bs). by rewrite Hb, Hbs.
Qed.

(** ** Indexing *)

Lemma np_index_nonneg {A : Type} (a : list A) (i : Z) (v : A) :
  0 ≤ i → np_index a i = Ok v → a !! Z.to_nat i = Some v.
Proof.
  intros Hi. unfold np_index.
  destruct (Z.ltb_spec i 0); [lia |].
  destruct (_ && _); [| discriminate].
  destruct (a !! Z.to_nat i); [| discriminate]. by intros [= ->].
Qed.

Lemma np_index_fmap {A B : Type} (f : A → B) (a : list A) (i : Z) :
  np_index (f <$> a) i = rbind (np_index a i) (λ v, Ok (f v)).
Proof.
  unfold np_index. rewrite length_fmap.
  destruct (_ && _); [| done].
  rewrite list_lookup_fmap. by destruct (a !! _).
Qed.

Lemma fancy_index_fmap {A B : Type} (f : A → B) (a : list A) (idx : list Z) :
  fancy_index (f <$> a) idx = rbind (fancy_index a idx) (λ r, Ok (f <$> r)).
Proof.
  unfold fancy_index. induction idx as [|i idx IH]; simpl; [done |].
  rewrite np_index_fmap, IH.
  destruct (np_index a i); simpl; [| done].
  by destruct (comprehension (np_index a) idx).
Qed.

Lemma comprehension_lookup {A B : Type} (f : A → result B) (l : list A)
    (bs : list B) (k : nat) (a : A) :
  comprehension f l = Ok bs → l !! k = Some a →
  ∃ b, f a = Ok b ∧ bs !! k = Some b.
Proof.
  intros H Hk. apply comprehension_ok in H.
  destruct (Forall2_lookup_l _ _ _ _ _ H Hk) as (b & Hb & Hf). eauto.
Qed.

Lemma elem_of_arange (n : nat) (i : Z) : i ∈ arange n → 0 ≤ i < Z.of_nat n.
Proof.
  unfold arange. intros (j & -> & Hj)%list_elem_of_fmap.
  apply elem_of_seq in Hj. lia.
Qed.

(** ** Strings and padding *)

Lemma split_space_nonempty (s : string) : split_space s ≠ [].
Proof.
  induction s as [|c s IH]; simpl; [done |].
  destruct (Ascii.eqb c " "); [done |].
  by destruct (split_space s).
Qed.

Lemma list_mul_singleton {A : Type} (a : A) (n : Z) :
  list_mul [a] n = replicate (Z.to_nat n) a.
Proof.
  unfold list_mul. induction (Z.to_nat n) as [|k IH]; simpl; [done |].
  by rewrite IH.
Qed.

Lemma dict_getitem_ok (vocabulary : gmap string Z) (w : string) (i : Z) :
  dict_getitem vocabulary w = Ok i ↔ vocabulary !! w = Some i.
Proof.
  unfold dict_getitem. destruct (vocabulary !! w); split; congruence.
Qed.

Lemma dict_getitem_raise (vocabulary : gmap string Z) (w : string) (e : exn) :
  dict_getitem vocabulary w = Raise e ↔ vocabulary !! w = None ∧ e = KeyError w.
Proof.
  unfold dict_getitem. destruct (vocabulary !! w); split.
  - discriminate.
  - intros [? _]. discriminate.
  - intros [= <-]. done.
  - intros [_ ->]. done.
Qed.

(** Among the tokens of a sentence of which one is unseen, there is a
    first unseen one. *)
Lemma first_unseen (vocabulary : gmap string Z) (l : list string) (w : string) :
  w ∈ l → vocabulary !! w = None →
  ∃ pre w' post, l = pre ++ w' :: post
                 ∧ Forall (λ u, is_Some (vocabulary !! u)) pre
                 ∧ vocabulary !! w' = None.
Proof.
  intros Hin Hw. induction l as [|u l IH]; [by apply elem_of_nil in Hin |].
  destruct (vocabulary !! u) as [i|] eqn:Hu.
  - apply elem_of_cons in Hin as [-> | Hin]; [congruence |].
    destruct (IH Hin) as (pre & w' & post & -> & Hpre & Hw').
    exists (u :: pre), w', post. split; [done |]. split; [| done].
    constructor; [by exists i | done].
  - exists [], u, l. done.
Qed.

Section FormatSentenceProperties.
Variable clean_str : string → string.
Implicit Types (vocabulary : gmap string Z) (sl : Z) (s : string).

Lemma processed_sentence_nonempty s : processed_sentence clean_str s ≠ [].
Proof. apply split_space_nonempty. Qed.

Lemma new_sentence_nonempty sl s : new_sentence clean_str sl s ≠ [].
Proof.
  unfold new_sentence. pose proof (processed_sentence_nonempty s).
  by destruct (processed_sentence clean_str s).
Qed.

(** [format_sentence] returns exactly when every token of the padded
    sentence has an index, and then returns those indices as one row. *)
Lemma format_sentence_ok vocabulary sl s (r : list (list Z)) :
  format_sentence clean_str vocabulary sl s = Ok r ↔
  ∃ row, r = [row]
         ∧ Forall2 (λ w i, vocabulary !! w = Some i) (new_sentence clean_str sl s) row.
Proof.
  unfold format_sentence.
  destruct (comprehension _ _) as [idx|e] eqn:Hc; simpl.
  - apply comprehension_ok in Hc.
    assert (idx ≠ []) as Hne.
    { intros ->. apply Forall2_length in Hc.
      pose proof (new_sentence_nonempty sl s).
      by destruct (new_sentence clean_str sl s). }
    assert (Forall2 (λ w i, vocabulary !! w = Some i) (new_sentence clean_str sl s) idx) as Hc'.
    { eapply Forall2_impl; [exact Hc |]. intros w i. apply dict_getitem_ok. }
    destruct idx as [|i idx]; [done |]. simpl. unfold reshape_1. split.
    + intros [= <-]. eauto.
    + intros (row & -> & Hrow). f_equal. f_equal.
      eapply comprehension_functional; [| exact Hc' | exact Hrow].
      simpl. congruence.
  - split; [discriminate |].
    intros (row & -> & Hrow).
    assert (comprehension (dict_getitem vocabulary) (new_sentence clean_str sl s) = Ok row)
      as Habs; [| congruence].
    apply comprehension_ok. eapply Forall2_impl; [exact Hrow |].
    intros w i. apply dict_getitem_ok.
Qed.

(** The only exception [format_sentence] raises is the [KeyError] of the
    first token of the padded sentence that the vocabulary lacks. *)
Lemma format_sentence_raise vocabulary sl s (e : exn) :
  format_sentence clean_str vocabulary sl s = Raise e ↔
  ∃ pre w post, new_sentence clean_str sl s = pre ++ w :: post
                ∧ Forall (λ u, is_Some (vocabulary !! u)) pre
                ∧ vocabulary !! w = None ∧ e = KeyError w.
Proof.
  unfold format_sentence.
  destruct (comprehension _ _) as [idx|e'] eqn:Hc; simpl.
  - split.
    + destruct idx; simpl; [| discriminate].
      apply comprehension_length in Hc.
      pose proof (new_sentence_nonempty sl s).
      by destruct (new_sentence clean_str sl s).
    + intros (pre & w & post & Hl & Hpre & Hw & ->).
      assert (comprehension (dict_getitem vocabulary) (new_sentence clean_str sl s)
              = Raise (KeyError w)) as Habs; [| congruence].
      apply comprehension_raise. exists pre, w, post. split; [done |]. split.
      * eapply Forall_impl; [exact Hpre |]. intros u [i Hi]. exists i.
        by apply dict_getitem_ok.
      * by apply dict_getitem_raise.
  - apply comprehension_raise in Hc as (pre & w & post & Hl & Hpre & Hw).
    apply dict_getitem_raise in Hw as [Hw ->].
    assert (Forall (λ u, is_Some (vocabulary !! u)) pre) as Hpre'.
    { eapply Forall_impl; [exact Hpre |]. intros u [i Hi]. exists i.
      by apply dict_getitem_ok. }
    split.
    + intros [= <-]. exists pre, w, post. done.
    + intros (pre' & w' & post' & Hl' & Hpre'' & Hw' & ->).
      f_equal. f_equal.
      rewrite Hl in Hl'. clear Hl.
      revert pre' Hl' Hpre''. induction pre as [|u pre IH]; intros pre' Hl' Hpre''.
      * destruct pre' as [|u' pre']; simplify_eq/=; [done |].
        inversion Hpre'' as [|? ? [? ?] ?]; subst. congruence.
      * destruct pre' as [|u' pre']; simplify_eq/=.
        -- inversion Hpre' as [|? ? [? ?] ?]; subst. congruence.
        -- inversion Hpre'; inversion Hpre''; inversion Hpre; subst. eauto.
Qed.

End FormatSentenceProperties.

(** ** Sentence formatting *)

(** C3: a sentence with fewer cleaned tokens than [sequence_length] is
    padded on the right with ["<PAD/>"] up to exactly [sequence_length]
    tokens; every encoded sequence [format_sentence] returns for it is one
    row of exactly [sequence_length] indices, one per padded token, and it
    does return one whenever the vocabulary has all those tokens. *)
Theorem C3_short_sentence_is_padded_to_sequence_length
    (clean_str : string → string) (vocabulary : gmap string Z) (sl : Z)
    (s : string) :
  Z.of_nat (length (processed_sentence clean_str s)) < sl →
  new_sentence clean_str sl s
  = processed_sentence clean_str s
    ++ replicate (Z.to_nat (sl - Z.of_nat (length (processed_sentence clean_str s))))
         PAD
  ∧ Z.of_nat (length (new_sentence clean_str sl s)) = sl
  ∧ (∀ r, format_sentence clean_str vocabulary sl s = Ok r →
       ∃ row, r = [row] ∧ Z.of_nat (length row) = sl
              ∧ Forall2 (λ w i, vocabulary !! w = Some i)
                  (new_sentence clean_str sl s) row)
  ∧ (Forall (λ w, is_Some (vocabulary !! w)) (new_sentence clean_str sl s) →
       ∃ row, format_sentence clean_str vocabulary sl s = Ok [row]
              ∧ Z.of_nat (length row) = sl).
Proof.
  intros Hshort.
  assert (new_sentence clean_str sl s
          = processed_sentence clean_str s
            ++ replicate (Z.to_nat (sl - Z.of_nat (length (processed_sentence clean_str s))))
                 PAD) as Hnew.
  { unfold new_sentence, num_padding. by rewrite list_mul_singleton. }
  assert (Z.of_nat (length (new_sentence clean_str sl s)) = sl) as Hlen.
  { rewrite Hnew, length_app, length_replicate. lia. }
  split; [exact Hnew |]. split; [exact Hlen |]. split.
  - intros r Hr. apply format_sentence_ok in Hr as (row & -> & Hrow).
    exists row. split; [done |]. split; [| done].
    apply Forall2_length in Hrow. lia.
  - intros Hall.
    destruct (comprehension_total (dict_getitem vocabulary)
                (new_sentence clean_str sl s)) as [row Hrow].
    { eapply Forall_impl; [exact Hall |]. intros w [i Hi]. exists i.
      by apply dict_getitem_ok. }
    exists row. split.
    + apply format_sentence_ok. exists row. split; [done |].
      apply comprehension_ok in Hrow.
      eapply Forall2_impl; [exact Hrow |]. intros w i. apply dict_getitem_ok.
    + apply comprehension_length in Hrow. lia.
Qed.

(** C9: a sentence with more cleaned tokens than [sequence_length] is
    neither padded nor truncated and its length raises nothing: the
    padding count is negative, the padded sentence is the full token list,
    the returned row has the full token count (more than
    [sequence_length]), and the only exception possible is the lookup error
    of a token of the sentence that the vocabulary lacks. *)
Theorem C9_long_sentence_keeps_its_full_length
    (clean_str : string → string) (vocabulary : gmap string Z) (sl : Z)
    (s : string) :
  sl < Z.of_nat (length (processed_sentence clean_str s)) →
  num_padding clean_str sl s < 0
  ∧ new_sentence clean_str sl s = processed_sentence clean_str s
  ∧ (Forall (λ w, is_Some (vocabulary !! w)) (processed_sentence clean_str s) →
       ∃ row, format_sentence clean_str vocabulary sl s = Ok [row]
              ∧ length row = length (processed_sentence clean_str s)
              ∧ sl < Z.of_nat (length row)
              ∧ Forall2 (λ w i, vocabulary !! w = Some i)
                  (processed_sentence clean_str s) row)
  ∧ (∀ e, format_sentence clean_str vocabulary sl s = Raise e →
       ∃ w, w ∈ processed_sentence clean_str s
            ∧ vocabulary !! w = None ∧ e = KeyError w).
Proof.
  intros Hlong.
  assert (num_padding clean_str sl s < 0) as Hneg by (unfold num_padding; lia).
  assert (new_sentence clean_str sl s = processed_sentence clean_str s) as Hnew.
  { unfold new_sentence. rewrite list_mul_singleton.
    replace (Z.to_nat (num_padding clean_str sl s)) with 0%nat by lia.
    simpl. by rewrite app_nil_r. }
  split; [exact Hneg |]. split; [exact Hnew |]. split.
  - intros Hall.
    destruct (comprehension_total (dict_getitem vocabulary)
                (processed_sentence clean_str s)) as [row Hrow].
    { eapply Forall_impl; [exact Hall |]. intros w [i Hi]. exists i.
      by apply dict_getitem_ok. }
    assert (Forall2 (λ w i, vocabulary !! w = Some i)
              (processed_sentence clean_str s) row) as Hrow'.
    { apply comprehension_ok in Hrow.
      eapply Forall2_impl; [exact Hrow |]. intros w i. apply dict_getitem_ok. }
    exists row. split.
    + apply format_sentence_ok. exists row. by rewrite Hnew.
    + apply comprehension_length in Hrow. split; [done |]. split; [lia | done].
  - intros e He.
    apply format_sentence_raise in He as (pre & w & post & Hl & _ & Hw & ->).
    exists w. split; [| done].
    rewrite <- Hnew, Hl. apply elem_of_app. right. apply elem_of_cons. by left.
Qed.

(** ** Classification *)

(** C4: a model output [p] is classified Positive exactly when
    [p >= 0.5] and Negative exactly when [p < 0.5]; the boundary [0.5] is
    Positive. *)
Theorem C4_mood_is_thresholded_at_one_half (p : Q) :
  (mood (Finite p) = "Positive" ↔ (1 # 2 <= p)%Q)
  ∧ (mood (Finite p) = "Negative" ↔ (p < 1 # 2)%Q)
  ∧ mood (Finite (1 # 2)) = "Positive".
Proof.
  unfold mood, half, float_lt.
  destruct (Qle_bool (1 # 2) p) eqn:Hle; simpl.
  - apply Qle_bool_iff in Hle. repeat split; try done.
    intros Hlt. exfalso. by eapply Qlt_not_le.
  - assert (p < 1 # 2)%Q as Hlt.
    { apply Qnot_le_lt. intros H. apply Qle_bool_iff in H. congruence. }
    repeat split; try done.
    intros H. exfalso. by eapply Qlt_not_le.
Qed.

(** ** The convolution graph *)

Lemma convs_foldl (cfg : config) (g : tensor) (acc : list tensor) (sizes : list Z) :
  foldl (conv_branch cfg g) acc sizes
  = acc ++ ((λ fsz, Flatten (MaxPooling1D 2
                      (Convolution1D (num_filters cfg) fsz "valid" "relu" 1 g)))
            <$> sizes).
Proof.
  revert acc. induction sizes as [|fsz sizes IH]; intros acc; simpl.
  - by rewrite app_nil_r.
  - rewrite IH. unfold conv_branch. by rewrite <- app_assoc.
Qed.

(** C5: the builder makes one branch per filter width, in the order of
    [filter_sizes]; a branch is a relu convolution with [num_filters]
    channels of that width, max-pooled with window 2 and flattened; with
    more than one width the graph output is the concatenation of the
    branches in that order, with exactly one width it is that branch
    itself. *)
Theorem C5_one_branch_per_filter_width_in_order (cfg : config) :
  let branch := λ fsz, Flatten (MaxPooling1D 2
                  (Convolution1D (num_filters cfg) fsz "valid" "relu" 1
                     (graph_in cfg))) in
  convs cfg = branch <$> filter_sizes cfg
  ∧ length (convs cfg) = length (filter_sizes cfg)
  ∧ ((1 < length (filter_sizes cfg))%nat →
       build_graph cfg
       = Ok (Model (graph_in cfg) (Merge "concat" (branch <$> filter_sizes cfg))))
  ∧ (∀ fsz, filter_sizes cfg = [fsz] →
       build_graph cfg = Ok (Model (graph_in cfg) (branch fsz))).
Proof.
  intros branch.
  assert (convs cfg = branch <$> filter_sizes cfg) as Hconvs.
  { unfold convs. by rewrite convs_foldl. }
  split; [exact Hconvs |]. split; [by rewrite Hconvs, length_fmap |]. split.
  - intros Hmany. unfold build_graph. rewrite Hconvs.
    destruct (Z.ltb_spec 1 (Z.of_nat (length (filter_sizes cfg)))); [done | lia].
  - intros fsz Hone. unfold build_graph. rewrite Hconvs, Hone. done.
Qed.

(** ** The script *)

Section ScriptProperties.
Context {E : Externals} {K : KerasBackend}.
Implicit Types (cfg : config) (w : World) (model : Sequential).

Ltac unfold_monad :=
  cbv [bind ret raise lift emit print get_rng put_rng get_fs put_fs
       np_random_seed np_random_permutation os_path_exists load_data
       load_weights fit save_weights predict] in *.

Lemma known_variation_false (mv : string) :
  known_variation mv = false ↔
  mv ≠ "CNN-non-static" ∧ mv ≠ "CNN-static" ∧ mv ≠ "CNN-rand".
Proof.
  unfold known_variation. rewrite !orb_false_iff, !String.eqb_neq. tauto.
Qed.

(** C6: with a [model_variation] other than the three known ones the
    script raises [ValueError('Unknown model variation')] right after the
    data is loaded: the log of the run holds the two status lines and the
    load, and nothing else (no permutation drawn, no model built, no
    training, no prediction); no file is touched. *)
Theorem C6_unknown_variation_aborts_after_loading cfg (data : loaded_data) w :
  model_variation cfg ≠ "CNN-rand" →
  model_variation cfg ≠ "CNN-non-static" →
  model_variation cfg ≠ "CNN-static" →
  main cfg data w
  = (Raise (ValueError "Unknown model variation"),
     {| fs := fs w; cache := cache w; rng := seed_state 2;
        log := log w ++ [EPrint ("Model variation is " +:+ model_variation cfg);
                         EPrint "Loading data..."; ELoadData] |}).
Proof.
  intros Hrand Hnon Hstatic.
  apply String.eqb_neq in Hrand, Hnon, Hstatic.
  destruct data as [[[x y] voc] vinv].
  unfold main, setup, data_preparation, select_variation. unfold_monad. simpl.
  rewrite Hrand, Hnon, Hstatic. simpl.
  by rewrite <- !app_assoc.
Qed.

Lemma training_cached cfg model xs ys w (p : model_params) :
  ACTION cfg = "predict" →
  fs w !! weights_file cfg = Some p →
  training cfg model xs ys w
  = (Ok (with_params model p),
     {| fs := fs w; cache := cache w; rng := rng w;
        log := log w ++ [ELoadWeights (weights_file cfg) p] |}).
Proof.
  intros Hact Hfile. unfold training. unfold_monad.
  apply String.eqb_eq in Hact. rewrite Hact. simpl.
  rewrite bool_decide_eq_true_2 by (by rewrite Hfile).
  by rewrite Hfile.
Qed.

Lemma training_trains cfg model xs ys w :
  ACTION cfg ≠ "predict" ∨ fs w !! weights_file cfg = None →
  training cfg model xs ys w
  = (Ok (with_params model (keras_fit (rng w) model xs ys (script_fit_args cfg)).1),
     {| fs := <[weights_file cfg := (keras_fit (rng w) model xs ys (script_fit_args cfg)).1]>
                (fs w); cache := cache w;
        rng := (keras_fit (rng w) model xs ys (script_fit_args cfg)).2;
        log := log w ++ [EFit xs ys (keras_fit (rng w) model xs ys (script_fit_args cfg)).1;
                         EPrint "dumping weights to file...";
                         ESaveWeights (weights_file cfg)
                           (keras_fit (rng w) model xs ys (script_fit_args cfg)).1] |}).
Proof.
  intros Hgate. unfold training. unfold_monad.
  fold (script_fit_args cfg).
  destruct (keras_fit (rng w) model xs ys (script_fit_args cfg)) as [p r'] eqn:Hfit.
  destruct (String.eqb_spec (ACTION cfg) "predict") as [Hact|]; simpl.
  - destruct Hgate as [| Hnone]; [done |].
    rewrite bool_decide_eq_false_2 by (rewrite Hnone; by intros [? ?]).
    rewrite Hfit. simpl. by rewrite <- !app_assoc.
  - rewrite Hfit. simpl. by rewrite <- !app_assoc.
Qed.

(** C1: the training gate.  When the action is ["predict"] and a weights
    file exists at the configured path, nothing is trained: the weights of
    that file are loaded and the file is left as it is.  In every other
    case the model is fitted and the fitted weights then replace whatever
    the path held.  So a run of the gate trains exactly when it is not the
    case that the action is ["predict"] and the file exists. *)
Theorem C1_training_is_skipped_exactly_for_predict_with_weights_file
    cfg model (xs : ndarray_x) (ys : list Z) w :
  (ACTION cfg = "predict" →
   ∀ p, fs w !! weights_file cfg = Some p →
     training cfg model xs ys w
     = (Ok (with_params model p),
        {| fs := fs w; cache := cache w; rng := rng w;
           log := log w ++ [ELoadWeights (weights_file cfg) p] |}))
  ∧ (ACTION cfg ≠ "predict" ∨ fs w !! weights_file cfg = None →
     ∃ trained r',
       keras_fit (rng w) model xs ys (script_fit_args cfg) = (trained, r')
       ∧ training cfg model xs ys w
         = (Ok (with_params model trained),
            {| fs := <[weights_file cfg := trained]> (fs w); cache := cache w; rng := r';
               log := log w ++ [EFit xs ys trained;
                                EPrint "dumping weights to file...";
                                ESaveWeights (weights_file cfg) trained] |})
       ∧ fs (training cfg model xs ys w).2 !! weights_file cfg = Some trained)
  ∧ (∃ events,
       log (training cfg model xs ys w).2 = log w ++ events
       ∧ (existsb is_fit events = false ↔
          ACTION cfg = "predict" ∧ is_Some (fs w !! weights_file cfg))).
Proof.
  split; [intros Hact p Hp; by apply training_cached |].
  split.
  - intros Hgate. rewrite (training_trains _ _ _ _ _ Hgate).
    destruct (keras_fit (rng w) model xs ys (script_fit_args cfg)) as [p r'] eqn:Hfit.
    exists p, r'. simpl. split; [done |]. split; [done |].
    apply lookup_insert_eq.
  - destruct (String.eqb_spec (ACTION cfg) "predict") as [Hact | Hact].
    + destruct (fs w !! weights_file cfg) as [p|] eqn:Hfile.
      * rewrite (training_cached _ _ _ _ _ p Hact Hfile). simpl.
        eexists. split; [done |]. simpl. split; [eauto | done].
      * rewrite (training_trains cfg model xs ys w) by by right. simpl.
        eexists. split; [done |]. simpl. split; [done |].
        intros [_ [? ?]]. congruence.
    + rewrite (training_trains cfg model xs ys w) by by left. simpl.
      eexists. split; [done |]. simpl. split; [done |].
      intros [? _]. congruence.
Qed.

(** *** Framed computations *)

Lemma framed_ret {A : Type} (a : A) : framed (ret a).
Proof.
  intros g. exists (Ok a), g, [], id. split; [constructor |].
  intros [f c g0 l] <-. unfold ret. simpl. by rewrite app_nil_r.
Qed.

Lemma framed_lift {A : Type} (r : result A) : framed (lift r).
Proof.
  intros g. exists r, g, [], id. split; [constructor |].
  intros [f c g0 l] <-. unfold lift. simpl. by rewrite app_nil_r.
Qed.

Lemma framed_raise {A : Type} (e : exn) : framed (raise (A:=A) e).
Proof. apply (framed_lift (Raise e)). Qed.

Lemma framed_emit (e : event) :
  is_fit e = false → is_predict e = false → framed (emit e).
Proof.
  intros Hf Hp g. exists (Ok tt), g, [e], id. split; [by repeat constructor |].
  by intros [f c g0 l] <-.
Qed.

Lemma framed_get_rng : framed get_rng.
Proof.
  intros g. exists (Ok g), g, [], id. split; [constructor |].
  intros [f c g0 l] <-. unfold get_rng. simpl. by rewrite app_nil_r.
Qed.

Lemma framed_put_rng (g' : rng_state) : framed (put_rng g').
Proof.
  intros g. exists (Ok tt), g', [], id. split; [constructor |].
  intros [f c g0 l] _. unfold put_rng. simpl. by rewrite app_nil_r.
Qed.

(** Writing [written c] to the cache that held [c], then going on. *)
Lemma framed_write_cache {A : Type} (written : w2v_store → w2v_store)
    (k : unit → M A) :
  framed (k tt) →
  framed (bind get_cache (λ c, bind (put_cache (written c)) k)).
Proof.
  intros Hk g. destruct (Hk g) as (r & g' & events & f & Hq & Hrun).
  exists r, g', events, (f ∘ written). split; [done |].
  intros [f0 c g0 l] <-. unfold bind, get_cache, put_cache. simpl.
  by rewrite (Hrun {| fs := f0; cache := written c; rng := g0; log := l |}).
Qed.

Lemma framed_bind {A B : Type} (m : M A) (k : A → M B) :
  framed m → (∀ a, framed (k a)) → framed (bind m k).
Proof.
  intros Hm Hk g. destruct (Hm g) as ([a|e] & g1 & ev1 & f1 & Hq1 & Hrun1).
  - destruct (Hk a g1) as (r2 & g2 & ev2 & f2 & Hq2 & Hrun2).
    exists r2, g2, (ev1 ++ ev2), (f2 ∘ f1). split; [by apply Forall_app |].
    intros w Hw. unfold bind. rewrite (Hrun1 w Hw).
    rewrite Hrun2 by done. simpl. by rewrite app_assoc.
  - exists (Raise e), g1, ev1, f1. split; [done |].
    intros w Hw. unfold bind. by rewrite (Hrun1 w Hw).
Qed.

Lemma framed_np_random_permutation (a : list Z) : framed (np_random_permutation a).
Proof.
  unfold np_random_permutation.
  apply framed_bind; [apply framed_get_rng |]. intros r.
  destruct (np_permutation r a) as [idx r'].
  apply framed_bind; [apply framed_put_rng |]. intros _.
  apply framed_bind; [by apply framed_emit |]. intros _.
  apply framed_ret.
Qed.

Lemma framed_select_variation cfg (x : list (list Z)) (vinv : list string) :
  framed (select_variation cfg x vinv).
Proof.
  unfold select_variation.
  destruct (_ || _).
  - apply framed_bind.
    { unfold call_train_word2vec.
      apply framed_bind; [apply framed_get_rng |]. intros r.
      destruct (train_word2vec r _ _ _ _ _) as [weights r'].
      apply framed_bind; [apply framed_put_rng |]. intros _.
      apply (framed_write_cache
               (λ c, train_word2vec_cache c x vinv (embedding_dim cfg)
                       (min_word_count cfg) (context cfg))).
      apply framed_bind; [by apply framed_emit |]. intros _.
      apply framed_ret. }
    intros embedding_weights.
    destruct (String.eqb _ _); [| apply framed_ret].
    apply framed_bind; [apply framed_lift |]. intros x'. apply framed_ret.
  - destruct (String.eqb _ _); [apply framed_ret | apply framed_raise].
Qed.

Lemma framed_shuffle_data (x : ndarray_x) (y : list (list Z)) :
  framed (shuffle_data x y).
Proof.
  unfold shuffle_data.
  apply framed_bind; [apply framed_np_random_permutation |]. intros idx.
  apply framed_bind; [apply framed_lift |]. intros xs.
  apply framed_bind; [apply framed_lift |]. intros yrows.
  apply framed_bind; [apply framed_lift |]. intros ys.
  apply framed_ret.
Qed.

Lemma framed_data_preparation cfg (data : loaded_data) :
  framed (data_preparation cfg data).
Proof.
  destruct data as [[[x y] voc] vinv]. unfold data_preparation, load_data, print.
  apply framed_bind; [apply framed_put_rng |]. intros _.
  apply framed_bind; [by apply framed_emit |]. intros _.
  apply framed_bind; [by apply framed_emit |]. intros _.
  apply framed_bind.
  { apply framed_bind; [by apply framed_emit |]. intros _. apply framed_ret. }
  intros [[[x0 y0] voc0] vinv0].
  apply framed_bind; [apply framed_select_variation |]. intros [x' ew].
  apply framed_bind; [apply framed_shuffle_data |]. intros [[idx xs] ys].
  apply framed_bind; [by apply framed_emit |]. intros _.
  apply framed_ret.
Qed.

Lemma framed_build_model cfg (voc : gmap string Z)
    (ew : option (list (list vec))) (g : graph_model) :
  framed (build_model cfg voc ew g).
Proof.
  unfold build_model.
  apply framed_bind; [apply framed_get_rng |]. intros r.
  apply framed_bind; [apply framed_lift |]. intros [p r'].
  apply framed_bind; [apply framed_put_rng |]. intros _.
  apply framed_bind; [by apply framed_emit |]. intros _.
  apply framed_ret.
Qed.

Lemma framed_setup cfg (data : loaded_data) : framed (setup cfg data).
Proof.
  unfold setup.
  apply framed_bind; [apply framed_data_preparation |]. intros p.
  apply framed_bind; [apply framed_lift |]. intros g.
  apply framed_bind; [apply framed_build_model |]. intros model.
  apply framed_ret.
Qed.

Lemma framed_quiet {A : Type} (m : M A) w (r : result A) w' :
  framed m → m w = (r, w') → quiet w w'.
Proof.
  intros Hm Hrun. destruct (Hm (rng w)) as (r0 & g' & events & f & Hq & Hw).
  rewrite Hw in Hrun by done. injection Hrun as _ <-.
  split; [done |]. by exists events.
Qed.

(** Everything before the training gate is [quiet]. *)
Lemma setup_quiet cfg (data : loaded_data) w (r : result (prepared * Sequential)) w1 :
  setup cfg data w = (r, w1) → quiet w w1.
Proof. apply framed_quiet, framed_setup. Qed.

(** *** Stage by stage *)

Lemma bind_ok {A B : Type} (m : M A) (k : A → M B) w (b : B) w' :
  bind m k w = (Ok b, w') → ∃ a w0, m w = (Ok a, w0) ∧ k a w0 = (Ok b, w').
Proof.
  unfold bind. destruct (m w) as [[a|e] w0]; [eauto | discriminate].
Qed.

Lemma lift_ok {A : Type} (r : result A) w (a : A) w' :
  lift r w = (Ok a, w') → r = Ok a ∧ w' = w.
Proof. unfold lift. by intros [= -> ->]. Qed.

Lemma select_variation_ok cfg (x : list (list Z)) (vinv : list string) w
    (x' : ndarray_x) (ew : option (list (list vec))) w' :
  select_variation cfg x vinv w = (Ok (x', ew), w') →
  let run :=
    train_word2vec (rng w) x vinv (embedding_dim cfg) (min_word_count cfg)
      (context cfg) in
  (model_variation cfg = "CNN-static" ∧ ew = Some run.1 ∧ rng w' = run.2
   ∧ ∃ vectors, substitute_vectors run.1 x = Ok vectors
                ∧ x' = VectorArray vectors)
  ∨ (model_variation cfg = "CNN-non-static" ∧ ew = Some run.1
     ∧ rng w' = run.2 ∧ x' = IndexArray x)
  ∨ (model_variation cfg = "CNN-rand" ∧ ew = None ∧ rng w' = rng w
     ∧ x' = IndexArray x).
Proof.
  unfold select_variation, call_train_word2vec. unfold_monad. simpl.
  destruct (String.eqb_spec (model_variation cfg) "CNN-static") as [Hs|Hs].
  - rewrite orb_true_r. simpl.
    destruct (train_word2vec (rng w) x vinv _ _ _) as [weights r']. simpl.
    destruct (substitute_vectors _ x) as [vectors|e] eqn:Hv; [| discriminate].
    intros [= <- <- <-]. simpl. left. eauto 10.
  - rewrite orb_false_r.
    destruct (String.eqb_spec (model_variation cfg) "CNN-non-static") as [Hn|Hn].
    + destruct (train_word2vec (rng w) x vinv _ _ _) as [weights r']. simpl.
      intros [= <- <- <-]. simpl. right. left. done.
    + destruct (String.eqb_spec (model_variation cfg) "CNN-rand") as [Hr|Hr];
        [| discriminate].
      intros [= <- <- <-]. right. right. done.
Qed.

Lemma shuffle_data_ok (x : ndarray_x) (y : list (list Z)) w
    (idx : list Z) (xs : ndarray_x) (ys : list Z) w' :
  shuffle_data x y w = (Ok (idx, xs, ys), w') →
  idx = (np_permutation (rng w) (arange (length y))).1
  ∧ x_getitem x idx = Ok xs
  ∧ ∃ yrows, fancy_index y idx = Ok yrows ∧ comprehension argmax yrows = Ok ys.
Proof.
  unfold shuffle_data. unfold_monad. simpl.
  destruct (np_permutation (rng w) (arange (length y))) as [idx0 r']. simpl.
  destruct (x_getitem x idx0) as [xs0|?] eqn:Hxs; [| discriminate].
  destruct (fancy_index y idx0) as [yrows|?] eqn:Hyrows; [| discriminate].
  destruct (comprehension argmax yrows) as [ys0|?] eqn:Hys; [| discriminate].
  simpl. intros [= <- <- <-]. split; [done |]. split; [done |].
  by exists yrows.
Qed.

Lemma data_preparation_ok cfg (x y : list (list Z)) (voc : gmap string Z)
    (vinv : list string) w (p : prepared) w' :
  data_preparation cfg (x, y, voc, vinv) w = (Ok p, w') →
  vocabulary p = voc
  ∧ (∃ w0 wa, rng w0 = seed_state 2
        ∧ select_variation cfg x vinv w0
          = (Ok (x_prepared p, embedding_weights p), wa)
        ∧ shuffle_indices p = (np_permutation (rng wa) (arange (length y))).1)
  ∧ x_getitem (x_prepared p) (shuffle_indices p) = Ok (x_shuffled p)
  ∧ ∃ yrows, fancy_index y (shuffle_indices p) = Ok yrows
             ∧ comprehension argmax yrows = Ok (y_shuffled p).
Proof.
  unfold data_preparation. intros H.
  apply bind_ok in H as ([] & w1 & Hseed & H).
  apply bind_ok in H as ([] & w2 & Hp1 & H).
  apply bind_ok in H as ([] & w3 & Hp2 & H).
  apply bind_ok in H as ([[[x0 y0] voc0] vinv0] & w4 & Hload & H).
  apply bind_ok in H as ([x' ew] & w5 & Hsel & H).
  apply bind_ok in H as ([[idx xs] ys] & w6 & Hshuf & H).
  apply bind_ok in H as ([] & w7 & Hp3 & H).
  unfold_monad. simplify_eq/=.
  destruct (shuffle_data_ok _ _ _ _ _ _ _ Hshuf) as (Hidx & Hxs & Hys).
  split; [done |]. split; [| done].
  eexists _, _. split; [| split; [exact Hsel | exact Hidx]]. done.
Qed.

Lemma setup_ok cfg (data : loaded_data) w (p : prepared) model w1 :
  setup cfg data w = (Ok (p, model), w1) →
  ∃ w0 g, data_preparation cfg data w = (Ok p, w0)
          ∧ build_graph cfg = Ok g
          ∧ layers model
            = model_layers cfg (vocabulary p) (embedding_weights p) g.
Proof.
  unfold setup. intros H.
  apply bind_ok in H as (p0 & w0 & Hprep & H).
  apply bind_ok in H as (g & w2 & Hg & H).
  apply lift_ok in Hg as [Hg ->].
  apply bind_ok in H as (m & w3 & Hm & H).
  unfold ret in H. injection H as <- <- <-.
  exists w0, g. split; [done |]. split; [done |].
  unfold build_model in Hm. unfold_monad.
  destruct (keras_build _ _) as [[? ?]|?]; by simplify_eq/=.
Qed.

Lemma main_after_setup cfg (data : loaded_data) w (p : prepared) model w1 :
  setup cfg data w = (Ok (p, model), w1) →
  main cfg data w
  = bind (training cfg model (x_shuffled p) (y_shuffled p))
      (λ model', prediction cfg (vocabulary p) model') w1.
Proof. intros H. unfold main. unfold bind at 1. by rewrite H. Qed.

Lemma main_trains cfg (data : loaded_data) w (p : prepared) model w1
    (trained : model_params) (r' : rng_state) :
  setup cfg data w = (Ok (p, model), w1) →
  ACTION cfg ≠ "predict" ∨ fs w1 !! weights_file cfg = None →
  keras_fit (rng w1) model (x_shuffled p) (y_shuffled p) (script_fit_args cfg)
  = (trained, r') →
  main cfg data w
  = prediction cfg (vocabulary p) (with_params model trained)
      {| fs := <[weights_file cfg := trained]> (fs w1); cache := cache w1; rng := r';
         log := log w1 ++ [EFit (x_shuffled p) (y_shuffled p) trained;
                           EPrint "dumping weights to file...";
                           ESaveWeights (weights_file cfg) trained] |}.
Proof.
  intros Hsetup Hgate Hfit.
  rewrite (main_after_setup _ _ _ _ _ _ Hsetup). unfold bind.
  rewrite training_trains by done. by rewrite Hfit.
Qed.

Lemma x_getitem_rows (x xs : ndarray_x) (idx : list Z) :
  x_getitem x idx = Ok xs → fancy_index (x_rows x) idx = Ok (x_rows xs).
Proof.
  destruct x as [rows | rows]; simpl; rewrite fancy_index_fmap;
    destruct (fancy_index rows idx); simpl; intros [= <-]; done.
Qed.

(** The vectors substituted for the token indices, entry by entry. *)
Lemma substitute_vectors_lookup (weights : list (list vec)) (x : list (list Z))
    (vectors : list (list vec)) :
  substitute_vectors weights x = Ok vectors →
  ∃ matrix, head weights = Some matrix
    ∧ length vectors = length x
    ∧ ∀ i tokens j t, x !! i = Some tokens → tokens !! j = Some t →
        ∃ row v, vectors !! i = Some row ∧ row !! j = Some v
                 ∧ np_index matrix t = Ok v.
Proof.
  unfold substitute_vectors. destruct weights as [|matrix weights]; [done |].
  simpl. intros H. exists matrix. split; [done |].
  split; [by eapply comprehension_length |].
  intros i tokens j t Hi Hj.
  destruct (comprehension_lookup _ _ _ _ _ H Hi) as (row & Hrow & Hvi).
  destruct (comprehension_lookup _ _ _ _ _ Hrow Hj) as (v & Hv & Hrj).
  eauto 10.
Qed.

Lemma model_layers_static cfg (voc : gmap string Z)
    (weights : option (list (list vec))) (g : graph_model) :
  model_variation cfg = "CNN-static" →
  existsb is_embedding (model_layers cfg voc weights g) = false.
Proof. intros Hs. unfold model_layers, add. by rewrite Hs. Qed.

Lemma model_layers_embedding cfg (voc : gmap string Z)
    (weights : option (list (list vec))) (g : graph_model) :
  model_variation cfg ≠ "CNN-static" →
  ∃ rest, model_layers cfg voc weights g
          = EmbeddingLayer (Z.of_nat (size voc)) (embedding_dim cfg)
              (sequence_length cfg) weights true :: rest
          ∧ existsb is_embedding rest = false.
Proof.
  intros Hs. apply String.eqb_neq in Hs. unfold model_layers, add.
  rewrite Hs. simpl. eexists. split; [reflexivity | done].
Qed.

(** C8: a set-up model has an embedding layer exactly when the variation
    is not 'CNN-static'.  For 'CNN-static' the token indices of [x] are
    replaced, entry by entry, by the rows of the pretrained matrix before
    the data is shuffled and trained on; for 'CNN-non-static' the first
    layer is a trainable embedding initialised with the pretrained
    weights; for 'CNN-rand' it is a trainable embedding without initial
    weights. *)
Theorem C8_embedding_layer_unless_static
    cfg (x y : list (list Z)) (voc : gmap string Z) (vinv : list string) w
    (p : prepared) model w1 :
  setup cfg (x, y, voc, vinv) w = (Ok (p, model), w1) →
  let pretrained := (word2vec_run cfg x vinv).1 in
  let embedding := λ weights,
    EmbeddingLayer (Z.of_nat (size voc)) (embedding_dim cfg)
      (sequence_length cfg) weights true in
  (existsb is_embedding (layers model) = true
   ↔ model_variation cfg ≠ "CNN-static")
  ∧ (model_variation cfg = "CNN-static" →
       ∃ vectors matrix,
         substitute_vectors pretrained x = Ok vectors
         ∧ head pretrained = Some matrix
         ∧ (∀ i tokens j t, x !! i = Some tokens → tokens !! j = Some t →
              ∃ row v, vectors !! i = Some row ∧ row !! j = Some v
                       ∧ np_index matrix t = Ok v)
         ∧ x_prepared p = VectorArray vectors
         ∧ x_getitem (VectorArray vectors) (shuffle_indices p)
           = Ok (x_shuffled p))
  ∧ (model_variation cfg = "CNN-non-static" →
       x_prepared p = IndexArray x
       ∧ ∃ rest, layers model = embedding (Some pretrained) :: rest
                 ∧ existsb is_embedding rest = false)
  ∧ (model_variation cfg = "CNN-rand" →
       x_prepared p = IndexArray x
       ∧ ∃ rest, layers model = embedding None :: rest
                 ∧ existsb is_embedding rest = false)
  ∧ known_variation (model_variation cfg) = true.
Proof.
  intros Hsetup pretrained embedding.
  apply setup_ok in Hsetup as (w0 & g & Hprep & _ & ->).
  apply data_preparation_ok in Hprep as (-> & (wb & wa & Hseed & Hsel & _) & Hxs & _).
  apply select_variation_ok in Hsel. rewrite Hseed in Hsel.
  fold (word2vec_run cfg x vinv) in Hsel. fold pretrained in Hsel.
  unfold known_variation.
  destruct Hsel as [(Hs & -> & _ & vectors & Hvec & Hx)
                   | [(Hn & -> & _ & Hx) | (Hr & -> & _ & Hx)]].
  - rewrite model_layers_static by done. rewrite Hs. simpl.
    split; [split; [discriminate | done] |].
    split; [| done]. intros _.
    destruct (substitute_vectors_lookup _ _ _ Hvec) as (matrix & Hhead & _ & Hlook).
    rewrite Hx in Hxs. exists vectors, matrix. repeat split; done.
  - assert (model_variation cfg ≠ "CNN-static") as Hs by (by rewrite Hn).
    destruct (model_layers_embedding cfg voc (Some pretrained) g Hs)
      as (rest & -> & Hno).
    rewrite Hn. simpl.
    split; [done |]. split; [done |]. split; [eauto | done].
  - assert (model_variation cfg ≠ "CNN-static") as Hs by (by rewrite Hr).
    destruct (model_layers_embedding cfg voc None g Hs) as (rest & -> & Hno).
    rewrite Hr. simpl.
    split; [done |]. split; [done |]. split; [done |]. split; [eauto | done].
Qed.

Lemma framed_outcome {A : Type} (m : M A) w1 w2 :
  framed m → rng w1 = rng w2 → (m w1).1 = (m w2).1.
Proof.
  intros Hm Hrng. destruct (Hm (rng w1)) as (r & g' & events & f & _ & Hrun).
  by rewrite (Hrun w1), (Hrun w2).
Qed.

Lemma bind_seed {A : Type} (s : Z) (k : unit → M A) w :
  bind (np_random_seed s) k w
  = k tt {| fs := fs w; cache := cache w; rng := seed_state s; log := log w |}.
Proof. reflexivity. Qed.

(** The script seeds the generator first: the generator state it is
    started with is never read. *)
Lemma data_preparation_reseed cfg (data : loaded_data) w :
  data_preparation cfg data w
  = data_preparation cfg data
      {| fs := fs w; cache := cache w; rng := seed_state 2; log := log w |}.
Proof. unfold data_preparation. by rewrite !bind_seed. Qed.

(** The outcome of the data preparation does not depend on the world it
    starts from: the generator is re-seeded before anything is drawn. *)
Lemma data_preparation_outcome cfg (data : loaded_data) w1 w2 :
  (data_preparation cfg data w1).1 = (data_preparation cfg data w2).1.
Proof.
  rewrite (data_preparation_reseed cfg data w1),
    (data_preparation_reseed cfg data w2).
  apply framed_outcome; [apply framed_data_preparation | done].
Qed.

(** C7: the shuffle draws one permutation of the row numbers and
    indexes both the sequences and the labels with it, so row [k] of the
    shuffled sequences and label [k] of the shuffled labels come from one
    and the same original row.  The generator it is drawn from is the one
    seeded with 2 (advanced by [train_word2vec] when that is called), so a
    second run on the same data, from any generator state and any files,
    yields the same permutation, the same shuffled arrays and hence the
    same training / validation split. *)
Theorem C7_shuffle_is_one_seeded_permutation
    cfg (x y : list (list Z)) (voc : gmap string Z) (vinv : list string) w
    (p : prepared) w' :
  (∀ r a, (np_permutation r a).1 ≡ₚ a) →
  data_preparation cfg (x, y, voc, vinv) w = (Ok p, w') →
  (∃ g, shuffle_indices p = (np_permutation g (arange (length y))).1
        ∧ (model_variation cfg = "CNN-rand" → g = seed_state 2)
        ∧ (model_variation cfg ≠ "CNN-rand" → g = (word2vec_run cfg x vinv).2))
  ∧ shuffle_indices p ≡ₚ arange (length y)
  ∧ length (x_rows (x_shuffled p)) = length y
  ∧ length (y_shuffled p) = length y
  ∧ (∀ k i, shuffle_indices p !! k = Some i →
       ∃ row onehot label,
         x_rows (x_prepared p) !! Z.to_nat i = Some row
         ∧ y !! Z.to_nat i = Some onehot
         ∧ argmax onehot = Ok label
         ∧ x_rows (x_shuffled p) !! k = Some row
         ∧ y_shuffled p !! k = Some label)
  ∧ (∀ w2, ∃ p2 w2',
       data_preparation cfg (x, y, voc, vinv) w2 = (Ok p2, w2')
       ∧ shuffle_indices p2 = shuffle_indices p
       ∧ x_shuffled p2 = x_shuffled p
       ∧ y_shuffled p2 = y_shuffled p
       ∧ ∀ cut, train_validation cut p2 = train_validation cut p).
Proof.
  intros Hperm Hrun.
  assert (∀ w2, ∃ w2', data_preparation cfg (x, y, voc, vinv) w2 = (Ok p, w2'))
    as Hagain.
  { intros w2.
    pose proof (data_preparation_outcome cfg (x, y, voc, vinv) w w2) as Hsame.
    rewrite Hrun in Hsame. simpl in Hsame.
    destruct (data_preparation cfg (x, y, voc, vinv) w2) as [r w2'].
    simpl in Hsame. subst r. by exists w2'. }
  apply data_preparation_ok in Hrun
    as (_ & (w0 & wa & Hseed & Hsel & Hidx) & Hxs & yrows & Hyrows & Hys).
  apply select_variation_ok in Hsel. rewrite Hseed in Hsel.
  fold (word2vec_run cfg x vinv) in Hsel.
  destruct p as [x' ew voc' idx xs ys]. simpl in *.
  assert (idx ≡ₚ arange (length y)) as Hidx_perm.
  { rewrite Hidx. apply Hperm. }
  assert (length idx = length y) as Hidx_len.
  { rewrite Hidx_perm. unfold arange. by rewrite length_fmap, length_seq. }
  apply x_getitem_rows in Hxs.
  split.
  { exists (rng wa). split; [done |].
    destruct Hsel as [(Hs & _ & Hg & _) | [(Hn & _ & Hg & _) | (Hr & _ & Hg & _)]].
    - split; [rewrite Hs; discriminate | done].
    - split; [rewrite Hn; discriminate | done].
    - split; [done | by intros []]. }
  split; [done |].
  split; [by rewrite (comprehension_length _ _ _ Hxs) |].
  split.
  { by rewrite (comprehension_length _ _ _ Hys), (comprehension_length _ _ _ Hyrows). }
  split.
  - intros k i Hk.
    assert (0 ≤ i) as Hi.
    { apply (elem_of_arange (length y)). rewrite <- Hidx_perm.
      by eapply list_elem_of_lookup_2. }
    destruct (comprehension_lookup _ _ _ _ _ Hxs Hk) as (row & Hrow & Hxk).
    destruct (comprehension_lookup _ _ _ _ _ Hyrows Hk) as (onehot & Hone & Hyk).
    destruct (comprehension_lookup _ _ _ _ _ Hys Hyk) as (label & Hlabel & Hlk).
    exists row, onehot, label.
    split; [by apply np_index_nonneg |].
    split; [by apply np_index_nonneg | done].
  - intros w2. destruct (Hagain w2) as [w2' Hw2]. eauto 10.
Qed.

(** What the prediction stage does once the action is ["predict"]: the
    sentence is formatted, the model queried, the verdict printed; the
    first of the three that raises ends the stage. *)
Lemma prediction_predict cfg (voc : gmap string Z) model w :
  ACTION cfg = "predict" →
  prediction cfg voc model w
  = match format_sentence clean_str voc (sequence_length cfg) (sentence cfg) with
    | Ok v =>
        match keras_predict model v with
        | Ok probs =>
            (Ok tt,
             {| fs := fs w; cache := cache w; rng := rng w;
                log := log w ++ [EPredict (params model) v;
                                 EPrint (verdict_line (sentence cfg)
                                           (mood probs))] |})
        | Raise e =>
            (Raise e,
             {| fs := fs w; cache := cache w; rng := rng w;
                log := log w ++ [EPredict (params model) v] |})
        end
    | Raise e => (Raise e, w)
    end.
Proof.
  intros Hact. apply String.eqb_eq in Hact.
  unfold prediction. rewrite Hact. unfold_monad.
  destruct (format_sentence _ _ _ _) as [v|e]; [| done].
  simpl. destruct (keras_predict model v) as [probs|e]; [| done].
  simpl. by rewrite <- app_assoc.
Qed.

(** C10: once the model is set up, (a) with action ["predict"] and no
    weights file the run trains, writes the trained weights to the path and
    then runs the prediction on the configured sentence with those trained
    weights: the model is queried once the sentence formats, and the
    verdict is printed once [model.predict] returns; when the sentence
    does not format, or [model.predict] rejects the encoded row, that
    error is raised after the training and the writing of the weights;
    (b) with any other action the run trains and writes the trained
    weights to the path, whatever the path held before, and ends there: no
    prediction event is logged. *)
Theorem C10_predict_without_file_trains_then_predicts
    cfg (data : loaded_data) w (p : prepared) model w1 :
  setup cfg data w = (Ok (p, model), w1) →
  quiet w w1
  ∧ ∃ trained r',
      keras_fit (rng w1) model (x_shuffled p) (y_shuffled p) (script_fit_args cfg)
      = (trained, r')
      ∧ let training_events :=
          [EFit (x_shuffled p) (y_shuffled p) trained;
           EPrint "dumping weights to file...";
           ESaveWeights (weights_file cfg) trained] in
        let saved := <[weights_file cfg := trained]> (fs w) in
        let encoded :=
          format_sentence clean_str (vocabulary p) (sequence_length cfg)
            (sentence cfg) in
        (ACTION cfg = "predict" → fs w !! weights_file cfg = None →
           (∀ v_list probs,
              encoded = Ok v_list →
              keras_predict (with_params model trained) v_list = Ok probs →
              main cfg data w
              = (Ok tt,
                 {| fs := saved; cache := cache w1; rng := r';
                    log := log w1 ++ training_events
                           ++ [EPredict trained v_list;
                               EPrint (verdict_line (sentence cfg)
                                         (mood probs))] |}))
           ∧ (∀ v_list e,
                encoded = Ok v_list →
                keras_predict (with_params model trained) v_list = Raise e →
                main cfg data w
                = (Raise e,
                   {| fs := saved; cache := cache w1; rng := r';
                      log := log w1 ++ training_events
                             ++ [EPredict trained v_list] |}))
           ∧ (∀ e,
                encoded = Raise e →
                main cfg data w
                = (Raise e,
                   {| fs := saved; cache := cache w1; rng := r';
                      log := log w1 ++ training_events |})))
        ∧ (ACTION cfg ≠ "predict" →
             main cfg data w
             = (Ok tt, {| fs := saved; cache := cache w1; rng := r';
                          log := log w1 ++ training_events |})
             ∧ saved !! weights_file cfg = Some trained
             ∧ existsb is_predict (training_events) = false).
Proof.
  intros Hsetup.
  pose proof (setup_quiet _ _ _ _ _ Hsetup) as Hquiet.
  split; [exact Hquiet |]. destruct Hquiet as [Hfs _].
  destruct (keras_fit (rng w1) model (x_shuffled p) (y_shuffled p)
              (script_fit_args cfg)) as [trained r'] eqn:Hfit.
  exists trained, r'. split; [done |]. simpl. split.
  - intros Hact Hnone.
    rewrite (main_trains _ _ _ _ _ _ trained r' Hsetup)
      by (done || (right; by rewrite Hfs)).
    rewrite Hfs. rewrite prediction_predict by done.
    split; [| split].
    + intros v_list probs Hv Hp. rewrite Hv, Hp. simpl.
      by rewrite <- !app_assoc.
    + intros v_list e Hv Hp. rewrite Hv, Hp. simpl.
      by rewrite <- !app_assoc.
    + intros e He. by rewrite He.
  - intros Hact.
    rewrite (main_trains _ _ _ _ _ _ trained r' Hsetup) by (done || by left).
    rewrite Hfs. unfold prediction.
    apply String.eqb_neq in Hact. rewrite Hact.
    split; [done |]. split; [apply lookup_insert_eq | done].
Qed.

(** C2: when some token of the padded sentence is not in the vocabulary,
    [format_sentence] raises the [KeyError] of the first such token and
    returns no encoded sequence at all (no index is substituted for the
    unseen token); the prediction stage of the script then raises that
    error before the model is queried. *)
Theorem C2_unseen_token_raises_lookup_error
    cfg (voc : gmap string Z) model w (token : string) :
  token ∈ new_sentence clean_str (sequence_length cfg) (sentence cfg) →
  voc !! token = None →
  ∃ pre unseen post,
    new_sentence clean_str (sequence_length cfg) (sentence cfg)
    = pre ++ unseen :: post
    ∧ Forall (λ u, is_Some (voc !! u)) pre
    ∧ voc !! unseen = None
    ∧ format_sentence clean_str voc (sequence_length cfg) (sentence cfg)
      = Raise (KeyError unseen)
    ∧ (∀ r, format_sentence clean_str voc (sequence_length cfg) (sentence cfg)
            ≠ Ok r)
    ∧ (ACTION cfg = "predict" →
         prediction cfg voc model w = (Raise (KeyError unseen), w)).
Proof.
  intros Hin Hnone.
  destruct (first_unseen voc _ _ Hin Hnone) as (pre & unseen & post & Hl & Hpre & Hu).
  assert (format_sentence clean_str voc (sequence_length cfg) (sentence cfg)
          = Raise (KeyError unseen)) as Hraise.
  { apply format_sentence_raise. exists pre, unseen, post. done. }
  exists pre, unseen, post.
  split; [done |]. split; [done |]. split; [done |]. split; [done |].
  split; [intros r; by rewrite Hraise |].
  intros Hact. apply String.eqb_eq in Hact.
  unfold prediction. rewrite Hact. unfold_monad. by rewrite Hraise.
Qed.

End ScriptProperties.

(** ** The properties on the small instance *)

Lemma C3_short_sentence_witness :
  ∃ row, format_sentence (λ s, s) toy_vocabulary 3 "good movie" = Ok [row]
         ∧ Z.of_nat (length row) = 3.
Proof.
  destruct (C3_short_sentence_is_padded_to_sequence_length
              (λ s, s) toy_vocabulary 3 "good movie") as (_ & _ & _ & H).
  - vm_compute. reflexivity.
  - apply H. repeat constructor; vm_compute; eauto.
Defined.

Lemma C9_long_sentence_witness :
  ∃ row, format_sentence (λ s, s) toy_vocabulary 1 "good bad movie" = Ok [row]
         ∧ length row = 3%nat.
Proof.
  destruct (C9_long_sentence_keeps_its_full_length
              (λ s, s) toy_vocabulary 1 "good bad movie") as (_ & _ & H & _).
  - vm_compute. reflexivity.
  - destruct H as (row & Hrow & Hlen & _).
    + repeat constructor; vm_compute; eauto.
    + exists row. split; [exact Hrow | exact Hlen].
Defined.

Lemma C2_unseen_token_witness :
  ∃ unseen,
    format_sentence (λ s, s) toy_vocabulary 3 "good ugh" = Raise (KeyError unseen)
    ∧ prediction (K:=toy_keras) (toy_single_width "CNN-rand" "predict")
        toy_vocabulary toy_model (toy_world ∅)
      = (Raise (KeyError unseen), toy_world ∅).
Proof.
  destruct (C2_unseen_token_raises_lookup_error (K:=toy_keras)
              (toy_single_width "CNN-rand" "predict") toy_vocabulary toy_model
              (toy_world ∅) "ugh")
    as (pre & unseen & post & _ & _ & _ & Hraise & _ & Hpred).
  - vm_compute. apply elem_of_cons. right. apply elem_of_cons. by left.
  - vm_compute. reflexivity.
  - exists unseen. split; [exact Hraise | apply Hpred; reflexivity].
Defined.

Lemma C5_branches_witness :
  build_graph (toy_config "CNN-rand" "predict")
  = Ok (Model (Input (3, 1))
          (Merge "concat"
             [Flatten (MaxPooling1D 2 (Convolution1D 3 1 "valid" "relu" 1 (Input (3, 1))));
              Flatten (MaxPooling1D 2 (Convolution1D 3 2 "valid" "relu" 1 (Input (3, 1))))]))
  ∧ build_graph (toy_single_width "CNN-rand" "predict")
    = Ok (Model (Input (3, 1))
            (Flatten (MaxPooling1D 2 (Convolution1D 3 2 "valid" "relu" 1 (Input (3, 1)))))).
Proof.
  split.
  - destruct (C5_one_branch_per_filter_width_in_order (toy_config "CNN-rand" "predict"))
      as (_ & _ & H & _).
    apply H. simpl. lia.
  - destruct (C5_one_branch_per_filter_width_in_order
                (toy_single_width "CNN-rand" "predict")) as (_ & _ & _ & H).
    apply (H 2). reflexivity.
Defined.

Lemma C6_unknown_variation_witness :
  main (K:=toy_keras) (toy_config "CNN-bogus" "predict") toy_data (toy_world ∅)
  = (Raise (ValueError "Unknown model variation"),
     @Build_World toy_externals ∅ [] 2
       [EPrint "Model variation is CNN-bogus"; EPrint "Loading data..."; ELoadData]).
Proof.
  apply (C6_unknown_variation_aborts_after_loading (K:=toy_keras)
           (toy_config "CNN-bogus" "predict") toy_data (toy_world ∅));
    simpl; discriminate.
Defined.

Lemma C1_training_gate_witness :
  training (K:=toy_keras) (toy_config "CNN-rand" "predict") toy_model
    (IndexArray []) [] (toy_world toy_files)
  = (Ok (with_params toy_model (toy_params 5)),
     @Build_World toy_externals toy_files [] 0
       [ELoadWeights "models/weights_file" (toy_params 5)])
  ∧ fs (training (K:=toy_keras) (toy_config "CNN-rand" "predict") toy_model
          (IndexArray []) [] (toy_world ∅)).2 !! "models/weights_file"
    = Some (toy_params 1).
Proof.
  split.
  - destruct (C1_training_is_skipped_exactly_for_predict_with_weights_file
                (K:=toy_keras) (toy_config "CNN-rand" "predict") toy_model
                (IndexArray []) [] (toy_world toy_files)) as (H & _).
    apply (H eq_refl (toy_params 5)). reflexivity.
  - destruct (C1_training_is_skipped_exactly_for_predict_with_weights_file
                (K:=toy_keras) (toy_config "CNN-rand" "predict") toy_model
                (IndexArray []) [] (toy_world ∅)) as (_ & H & _).
    destruct H as (trained & r' & Hfit & _ & Hfs).
    + right. reflexivity.
    + injection Hfit as <- _. exact Hfs.
Defined.

Lemma C8_embedding_layer_witness :
  (∃ p model w1 vectors,
     setup (K:=toy_keras) (toy_config "CNN-static" "predict") toy_data (toy_world ∅)
     = (Ok (p, model), w1)
     ∧ x_prepared p = VectorArray vectors)
  ∧ (∃ p model w1 rest,
       setup (K:=toy_keras) (toy_config "CNN-non-static" "predict") toy_data
         (toy_world ∅)
       = (Ok (p, model), w1)
       ∧ layers model
         = @EmbeddingLayer toy_externals 4 1 3 (Some [[7; 7; 7; 7]]) true :: rest)
  ∧ (∃ p model w1 rest,
       setup (K:=toy_keras) (toy_config "CNN-rand" "predict") toy_data (toy_world ∅)
       = (Ok (p, model), w1)
       ∧ layers model = @EmbeddingLayer toy_externals 4 1 3 None true :: rest).
Proof.
  split; [| split].
  - assert (setup (K:=toy_keras) (toy_config "CNN-static" "predict") toy_data
              (toy_world ∅) = toy_setup_static) as Hs by (vm_compute; reflexivity).
    unfold toy_setup_static in Hs.
    destruct (C8_embedding_layer_unless_static (K:=toy_keras) _ _ _ _ _ _ _ _ _ Hs)
      as (_ & Hstatic & _).
    destruct (Hstatic eq_refl) as (vectors & matrix & _ & _ & _ & Hx & _).
    eexists _, _, _, vectors. split; [exact Hs | exact Hx].
  - assert (setup (K:=toy_keras) (toy_config "CNN-non-static" "predict") toy_data
              (toy_world ∅) = toy_setup_non_static) as Hs by (vm_compute; reflexivity).
    unfold toy_setup_non_static in Hs.
    destruct (C8_embedding_layer_unless_static (K:=toy_keras) _ _ _ _ _ _ _ _ _ Hs)
      as (_ & _ & Hnon & _).
    destruct (Hnon eq_refl) as (_ & rest & Hrest & _).
    eexists _, _, _, rest. split; [exact Hs | exact Hrest].
  - assert (setup (K:=toy_keras) (toy_config "CNN-rand" "predict") toy_data
              (toy_world ∅) = toy_setup_rand) as Hs by (vm_compute; reflexivity).
    unfold toy_setup_rand in Hs.
    destruct (C8_embedding_layer_unless_static (K:=toy_keras) _ _ _ _ _ _ _ _ _ Hs)
      as (_ & _ & _ & Hrand & _).
    destruct (Hrand eq_refl) as (_ & rest & Hrest & _).
    eexists _, _, _, rest. split; [exact Hs | exact Hrest].
Defined.

Lemma C7_shuffle_witness :
  ∃ p w',
    data_preparation (toy_config "CNN-rand" "predict") toy_data (toy_world ∅)
    = (Ok p, w')
    ∧ shuffle_indices p ≡ₚ arange 2
    ∧ x_rows (x_shuffled p) !! 0%nat = x_rows (x_prepared p) !! 1%nat.
Proof.
  assert (data_preparation (toy_config "CNN-rand" "predict") toy_data (toy_world ∅)
          = toy_preparation) as Hrun by (vm_compute; reflexivity).
  unfold toy_preparation in Hrun.
  destruct (C7_shuffle_is_one_seeded_permutation (E:=toy_externals)
              _ _ _ _ _ _ _ _ (λ r a, reverse_Permutation a) Hrun)
    as (_ & Hperm & _ & _ & Hpair & _).
  eexists _, _. split; [exact Hrun |]. split; [exact Hperm |].
  destruct (Hpair 0%nat 1 eq_refl) as (row & onehot & label & Hx & _ & _ & Hxs & _).
  exact (eq_trans Hxs (eq_sym Hx)).
Defined.

Lemma C10_train_then_predict_witness :
  (∃ w',
     main (K:=toy_keras) (toy_config "CNN-rand" "predict") toy_data (toy_world ∅)
     = (Ok tt, w'))
  ∧ (∃ w',
       main (K:=toy_keras) (toy_config "CNN-rand" "train") toy_data
         (toy_world toy_files)
       = (Ok tt, w')
       ∧ fs w' !! "models/weights_file" = Some (toy_params 1)).
Proof.
  split.
  - assert (setup (K:=toy_keras) (toy_config "CNN-rand" "predict") toy_data
              (toy_world ∅) = toy_setup_rand) as Hs by (vm_compute; reflexivity).
    unfold toy_setup_rand in Hs.
    destruct (C10_predict_without_file_trains_then_predicts (K:=toy_keras)
                _ _ _ _ _ _ Hs) as (_ & trained & r' & _ & Hpredict & _).
    destruct (Hpredict eq_refl eq_refl) as [Hok _].
    eexists. apply (Hok [[0; 1; 3]] (Finite (3 # 4)%Q)).
    + vm_compute. reflexivity.
    + vm_compute. reflexivity.
  - assert (setup (K:=toy_keras) (toy_config "CNN-rand" "train") toy_data
              (toy_world toy_files) = toy_setup_train) as Hs by (vm_compute; reflexivity).
    unfold toy_setup_train in Hs.
    destruct (C10_predict_without_file_trains_then_predicts (K:=toy_keras)
                _ _ _ _ _ _ Hs) as (_ & trained & r' & Hfit & _ & Htrain).
    destruct Htrain as (Hmain & Hsaved & _); [discriminate |].
    injection Hfit as <- _.
    eexists. split; [exact Hmain | exact Hsaved].
Defined.

(** * Further properties *)

(** ** Tokens *)

Lemma split_space_cons (s : string) : ∃ t ts, split_space s = t :: ts.
Proof.
  pose proof (split_space_nonempty s). destruct (split_space s); [done | eauto].
Qed.

(** X4: splitting at the spaces loses nothing: the tokens joined by
    single spaces are the cleaned sentence again, there is one token more
    than there are spaces, and no token holds a space. *)
Theorem X4_tokens_joined_by_spaces_are_the_cleaned_sentence
    (clean_str : string → string) (s : string) :
  String.concat " " (processed_sentence clean_str s) = clean_str s
  ∧ length (processed_sentence clean_str s) = S (count_spaces (clean_str s))
  ∧ Forall (λ t, count_spaces t = 0%nat) (processed_sentence clean_str s).
Proof.
  unfold processed_sentence. generalize (clean_str s). clear s. intros s.
  induction s as [|c s (IHjoin & IHlen & IHtok)]; simpl.
  - repeat split. by repeat constructor.
  - destruct (split_space_cons s) as (t & ts & Hs). rewrite Hs in *.
    simpl in IHjoin, IHlen.
    destruct (Ascii.eqb_spec c " ") as [-> | Hc]; simpl.
    + rewrite IHjoin. split; [done |]. split; [by rewrite IHlen |].
      by constructor.
    + split.
      { destruct ts; simpl in *; by rewrite <- IHjoin. }
      split; [exact IHlen |].
      inversion IHtok; subst. constructor; [| done]. simpl.
      by destruct (Ascii.eqb_spec c " ").
Qed.

(** ** Sentence formatting, all lengths *)

Lemma length_new_sentence (clean_str : string → string) (sl : Z) (s : string) :
  Z.of_nat (length (new_sentence clean_str sl s))
  = Z.max sl (Z.of_nat (length (processed_sentence clean_str s))).
Proof.
  unfold new_sentence, num_padding.
  rewrite list_mul_singleton, length_app, length_replicate. lia.
Qed.

(** X1: whatever the sentence, a returned encoding is one row whose length
    is the larger of [sequence_length] and the token count; in particular
    it is never empty, also for a zero or negative [sequence_length]. *)
Theorem X1_encoded_length_is_max_of_sequence_length_and_token_count
    (clean_str : string → string) (vocabulary : gmap string Z) (sl : Z)
    (s : string) (r : list (list Z)) :
  format_sentence clean_str vocabulary sl s = Ok r →
  ∃ row, r = [row]
         ∧ Z.of_nat (length row)
           = Z.max sl (Z.of_nat (length (processed_sentence clean_str s)))
         ∧ (1 ≤ length row)%nat.
Proof.
  intros Hr. apply format_sentence_ok in Hr as (row & -> & Hrow).
  apply Forall2_length in Hrow.
  pose proof (length_new_sentence clean_str sl s) as Hlen.
  pose proof (processed_sentence_nonempty clean_str s) as Hne.
  destruct (processed_sentence clean_str s) eqn:Htok; [done |].
  exists row. simpl in *. split; [done |]. split; lia.
Qed.

(** X2: [format_sentence] returns exactly when the vocabulary has every
    token of the padded sentence, and the only exception it ever raises is
    the [KeyError] of a padded token the vocabulary lacks: [np.hstack]
    never sees an empty list. *)
Theorem X2_format_sentence_succeeds_iff_all_tokens_known
    (clean_str : string → string) (vocabulary : gmap string Z) (sl : Z)
    (s : string) :
  ((∃ r, format_sentence clean_str vocabulary sl s = Ok r)
   ↔ Forall (λ w, is_Some (vocabulary !! w)) (new_sentence clean_str sl s))
  ∧ (∀ e, format_sentence clean_str vocabulary sl s = Raise e →
       ∃ w, e = KeyError w ∧ w ∈ new_sentence clean_str sl s
            ∧ vocabulary !! w = None).
Proof.
  split; [split |].
  - intros (r & Hr). apply format_sentence_ok in Hr as (row & _ & Hrow).
    induction Hrow; constructor; eauto.
  - intros Hall.
    destruct (comprehension_total (dict_getitem vocabulary)
                (new_sentence clean_str sl s)) as [row Hrow].
    { eapply Forall_impl; [exact Hall |]. intros w [i Hi]. exists i.
      by apply dict_getitem_ok. }
    exists [row]. apply format_sentence_ok. exists row. split; [done |].
    apply comprehension_ok in Hrow.
    eapply Forall2_impl; [exact Hrow |]. intros w i. apply dict_getitem_ok.
  - intros e He.
    apply format_sentence_raise in He as (pre & w & post & Hl & _ & Hw & ->).
    exists w. split; [done |]. split; [| done].
    rewrite Hl. apply elem_of_app. right. apply elem_of_cons. by left.
Qed.

(** X3: with a vocabulary that gives distinct tokens distinct indices, the
    encoding determines the padded sentence: two sentences with the same
    encoding have the same padded token list. *)
Theorem X3_encoding_is_injective_for_an_injective_vocabulary
    (clean_str : string → string) (vocabulary : gmap string Z)
    (sl1 sl2 : Z) (s1 s2 : string) (r : list (list Z)) :
  (∀ w1 w2 i, vocabulary !! w1 = Some i → vocabulary !! w2 = Some i → w1 = w2) →
  format_sentence clean_str vocabulary sl1 s1 = Ok r →
  format_sentence clean_str vocabulary sl2 s2 = Ok r →
  new_sentence clean_str sl1 s1 = new_sentence clean_str sl2 s2.
Proof.
  intros Hinj H1 H2.
  apply format_sentence_ok in H1 as (row1 & -> & Hrow1).
  apply format_sentence_ok in H2 as (row2 & [= <-] & Hrow2).
  apply Forall2_flip in Hrow1, Hrow2.
  eapply comprehension_functional; [| exact Hrow1 | exact Hrow2].
  intros i w1 w2. simpl. apply Hinj.
Qed.

(** X5: a sentence that cleans to the empty string still has one token,
    the empty one; it is padded like any other and its lookup fails unless
    the vocabulary has the empty token. *)
Theorem X5_empty_sentence_is_one_empty_token
    (clean_str : string → string) (vocabulary : gmap string Z) (sl : Z)
    (s : string) :
  clean_str s = "" →
  processed_sentence clean_str s = [""]
  ∧ new_sentence clean_str sl s = "" :: replicate (Z.to_nat (sl - 1)) PAD
  ∧ (vocabulary !! "" = None →
       format_sentence clean_str vocabulary sl s = Raise (KeyError "")).
Proof.
  intros Hempty.
  assert (processed_sentence clean_str s = [""]) as Htok.
  { unfold processed_sentence. by rewrite Hempty. }
  assert (new_sentence clean_str sl s = "" :: replicate (Z.to_nat (sl - 1)) PAD)
    as Hnew.
  { unfold new_sentence, num_padding. rewrite Htok, list_mul_singleton. done. }
  split; [done |]. split; [done |].
  intros Hnone. apply format_sentence_raise.
  exists [], "", (replicate (Z.to_nat (sl - 1)) PAD).
  split; [done |]. split; [constructor | done].
Qed.

(** ** Labels *)

Lemma argmax_from_zeros (j : nat) (best best_pos pos : Z) :
  0 ≤ best → argmax_from best best_pos pos (replicate j 0) = best_pos.
Proof.
  intros Hbest. revert pos. induction j as [|j IH]; intros pos; simpl; [done |].
  destruct (Z.ltb_spec best 0); [lia | apply IH].
Qed.

Lemma argmax_from_hot (k j : nat) (best_pos pos : Z) :
  argmax_from 0 best_pos pos (replicate k 0 ++ 1 :: replicate j 0)
  = pos + Z.of_nat k.
Proof.
  revert pos. induction k as [|k IH]; intros pos; simpl.
  - rewrite argmax_from_zeros by lia. lia.
  - rewrite IH. lia.
Qed.

(** X8: the label of a one-hot row is the position of its one: [[1, 0]]
    becomes class 0 and [[0, 1]] class 1. *)
Theorem X8_argmax_of_a_one_hot_row_is_the_hot_position (i j : nat) :
  argmax (replicate i 0 ++ 1 :: replicate j 0) = Ok (Z.of_nat i).
Proof.
  destruct i as [|i]; simpl.
  - by rewrite argmax_from_zeros by lia.
  - rewrite argmax_from_hot. f_equal. lia.
Qed.

(** ** The script, further *)

Section FurtherScriptProperties.
Context {E : Externals} {K : KerasBackend}.
Implicit Types (cfg : config) (w : World) (model : Sequential).

Ltac unfold_effects :=
  cbv [bind ret raise lift emit print get_rng put_rng get_fs put_fs
       get_cache put_cache
       np_random_seed np_random_permutation os_path_exists load_data
       load_weights fit save_weights predict] in *.

(** X6: with an empty [filter_sizes] the graph construction raises the
    [IndexError] of [convs[0]], and the script stops right after the data
    preparation: no model is built, nothing is trained or predicted and no
    weights file is written. *)
Theorem X6_empty_filter_sizes_raise_IndexError cfg :
  filter_sizes cfg = [] →
  build_graph cfg = Raise (IndexError "list index out of range")
  ∧ (∀ (data : loaded_data) w (p : prepared) w',
       data_preparation cfg data w = (Ok p, w') →
       main cfg data w = (Raise (IndexError "list index out of range"), w')).
Proof.
  intros Hnil.
  assert (build_graph cfg = Raise (IndexError "list index out of range"))
    as Hraise.
  { unfold build_graph, convs. by rewrite Hnil. }
  split; [done |].
  intros data w p w' Hprep.
  unfold main, setup. unfold bind. rewrite Hprep. unfold lift.
  by rewrite Hraise.
Qed.

(** X12: the 'CNN-static' substitution needs the embedding matrix to be
    there ([IndexError] on an empty weights list) and keeps the shape of
    [x]: as many sentences, and as many positions in each. *)
Theorem X12_substitute_vectors_keeps_the_shape (x : list (list Z)) :
  substitute_vectors [] x = Raise (IndexError "list index out of range")
  ∧ (∀ weights vectors,
       substitute_vectors weights x = Ok vectors →
       length vectors = length x
       ∧ Forall2 (λ tokens row, length row = length tokens) x vectors).
Proof.
  split; [done |]. intros weights vectors.
  unfold substitute_vectors. destruct weights as [|matrix weights]; [done |].
  simpl. intros H. split; [by eapply comprehension_length |].
  apply comprehension_ok in H. eapply Forall2_impl; [exact H |].
  intros tokens row. apply comprehension_length.
Qed.

Lemma main_cached cfg (data : loaded_data) w (p : prepared) model w1
    (stored : model_params) :
  setup cfg data w = (Ok (p, model), w1) →
  ACTION cfg = "predict" →
  fs w1 !! weights_file cfg = Some stored →
  main cfg data w
  = prediction cfg (vocabulary p) (with_params model stored)
      {| fs := fs w1; cache := cache w1; rng := rng w1;
         log := log w1 ++ [ELoadWeights (weights_file cfg) stored] |}.
Proof.
  intros Hsetup Hact Hfile.
  rewrite (main_after_setup _ _ _ _ _ _ Hsetup). unfold bind.
  by rewrite (training_cached _ _ _ _ _ stored Hact Hfile).
Qed.

(** X9: with action ["predict"] and a weights file in place, a run that
    sets its model up trains nothing, leaves the weights files as they
    were, and queries the model with exactly the weights stored in the
    file; the verdict is printed once [model.predict] returns, and when the
    sentence does not format or [model.predict] rejects the encoded row,
    that error is raised after the weights were loaded. *)
Theorem X9_cached_run_predicts_with_the_stored_weights
    cfg (data : loaded_data) w (p : prepared) model w1 (stored : model_params) :
  setup cfg data w = (Ok (p, model), w1) →
  ACTION cfg = "predict" →
  fs w !! weights_file cfg = Some stored →
  let encoded :=
    format_sentence clean_str (vocabulary p) (sequence_length cfg) (sentence cfg) in
  (∀ v probs,
     encoded = Ok v →
     keras_predict (with_params model stored) v = Ok probs →
     main cfg data w
     = (Ok tt,
        {| fs := fs w; cache := cache w1; rng := rng w1;
           log := log w1
                  ++ [ELoadWeights (weights_file cfg) stored;
                      EPredict stored v;
                      EPrint (verdict_line (sentence cfg) (mood probs))] |}))
  ∧ (∀ v e,
       encoded = Ok v →
       keras_predict (with_params model stored) v = Raise e →
       main cfg data w
       = (Raise e,
          {| fs := fs w; cache := cache w1; rng := rng w1;
             log := log w1 ++ [ELoadWeights (weights_file cfg) stored;
                               EPredict stored v] |}))
  ∧ (∀ e,
       encoded = Raise e →
       main cfg data w
       = (Raise e,
          {| fs := fs w; cache := cache w1; rng := rng w1;
             log := log w1 ++ [ELoadWeights (weights_file cfg) stored] |})).
Proof.
  intros Hsetup Hact Hfile encoded. subst encoded.
  destruct (setup_quiet _ _ _ _ _ Hsetup) as [Hfs _].
  rewrite (main_cached _ _ _ _ _ _ stored Hsetup Hact) by (by rewrite Hfs).
  rewrite prediction_predict by done. rewrite Hfs. split; [| split].
  - intros v probs Hv Hp. rewrite Hv, Hp. simpl. by rewrite <- app_assoc.
  - intros v e Hv Hp. rewrite Hv, Hp. simpl. by rewrite <- app_assoc.
  - intros e He. by rewrite He.
Qed.

Lemma training_other_files cfg model (xs : ndarray_x) (ys : list Z) w
    (r : result Sequential) w' (path : string) :
  training cfg model xs ys w = (r, w') →
  path ≠ weights_file cfg →
  fs w' !! path = fs w !! path.
Proof.
  intros Hrun Hpath.
  destruct (String.eqb_spec (ACTION cfg) "predict") as [Hact | Hact].
  - destruct (fs w !! weights_file cfg) as [stored|] eqn:Hfile.
    + rewrite (training_cached _ _ _ _ _ stored Hact Hfile) in Hrun.
      by injection Hrun as _ <-.
    + rewrite training_trains in Hrun by by right.
      injection Hrun as _ <-. simpl. by rewrite lookup_insert_ne.
  - rewrite training_trains in Hrun by by left.
    injection Hrun as _ <-. simpl. by rewrite lookup_insert_ne.
Qed.

Lemma prediction_fs cfg (voc : gmap string Z) model w (r : result unit) w' :
  prediction cfg voc model w = (r, w') → fs w' = fs w.
Proof.
  unfold prediction. destruct (String.eqb _ _).
  - unfold_effects. destruct (format_sentence _ _ _ _) as [v|e]; simpl;
      [| by intros [= _ <-]].
    destruct (keras_predict model v); simpl; by intros [= _ <-].
  - unfold ret. by intros [= _ <-].
Qed.

(** *** The trainer's cache *)

Lemma cache_rel_bind (R : w2v_store → w2v_store → Prop) {A B : Type}
    (m : M A) (k : A → M B) :
  (∀ c, R c c) →
  cache_rel eq m → (∀ a, cache_rel R (k a)) → cache_rel R (bind m k).
Proof.
  intros Hrefl Hm Hk w r w'. unfold bind.
  destruct (m w) as [[a|e] w0] eqn:Hmw.
  - intros Hrun. rewrite (Hm _ _ _ Hmw). by eapply Hk.
  - intros [= _ <-]. rewrite <- (Hm _ _ _ Hmw). apply Hrefl.
Qed.

Lemma cache_rel_bind_value (R : w2v_store → w2v_store → Prop) {A B : Type}
    (m : M A) (k : A → M B) (a0 : A) :
  (∀ c, R c c) →
  cache_rel eq m → (∀ w a w', m w = (Ok a, w') → a = a0) →
  cache_rel R (k a0) → cache_rel R (bind m k).
Proof.
  intros Hrefl Hm Hval Hk w r w'. unfold bind.
  destruct (m w) as [[a|e] w0] eqn:Hmw.
  - intros Hrun. rewrite (Hm _ _ _ Hmw).
    rewrite (Hval _ _ _ Hmw) in Hrun. by eapply Hk.
  - intros [= _ <-]. rewrite <- (Hm _ _ _ Hmw). apply Hrefl.
Qed.

Lemma cache_rel_bind_l (R : w2v_store → w2v_store → Prop) {A B : Type}
    (m : M A) (k : A → M B) :
  cache_rel R m → (∀ a, cache_rel eq (k a)) → cache_rel R (bind m k).
Proof.
  intros Hm Hk w r w'. unfold bind.
  destruct (m w) as [[a|e] w0] eqn:Hmw.
  - intros Hrun. rewrite <- (Hk _ _ _ _ Hrun). by eapply Hm.
  - intros [= _ <-]. by eapply Hm.
Qed.

Lemma cache_rel_eq_bind {A B : Type} (m : M A) (k : A → M B) :
  cache_rel eq m → (∀ a, cache_rel eq (k a)) → cache_rel eq (bind m k).
Proof. intros Hm Hk. by apply cache_rel_bind. Qed.

Lemma cache_rel_lift {A : Type} (r : result A) : cache_rel eq (lift r).
Proof. intros w r' w' [= _ <-]. done. Qed.

Lemma cache_rel_ret {A : Type} (a : A) : cache_rel eq (ret a).
Proof. apply (cache_rel_lift (Ok a)). Qed.

Lemma cache_rel_emit (e : event) : cache_rel eq (emit e).
Proof. intros w r w' [= _ <-]. done. Qed.

Lemma cache_rel_get_rng : cache_rel eq get_rng.
Proof. intros w r w' [= _ <-]. done. Qed.

Lemma cache_rel_put_rng (g : rng_state) : cache_rel eq (put_rng g).
Proof. intros w r w' [= _ <-]. done. Qed.

Lemma cache_rel_shuffle_data (x : ndarray_x) (y : list (list Z)) :
  cache_rel eq (shuffle_data x y).
Proof.
  unfold shuffle_data, np_random_permutation.
  apply cache_rel_eq_bind.
  { apply cache_rel_eq_bind; [apply cache_rel_get_rng |]. intros r.
    destruct (np_permutation r _) as [idx r'].
    apply cache_rel_eq_bind; [apply cache_rel_put_rng |]. intros _.
    apply cache_rel_eq_bind; [apply cache_rel_emit |]. intros _.
    apply cache_rel_ret. }
  intros idx.
  apply cache_rel_eq_bind; [apply cache_rel_lift |]. intros xs.
  apply cache_rel_eq_bind; [apply cache_rel_lift |]. intros yrows.
  apply cache_rel_eq_bind; [apply cache_rel_lift |]. intros ys.
  apply cache_rel_ret.
Qed.

Lemma cache_rel_build_model cfg (voc : gmap string Z)
    (ew : option (list (list vec))) (g : graph_model) :
  cache_rel eq (build_model cfg voc ew g).
Proof.
  unfold build_model.
  apply cache_rel_eq_bind; [apply cache_rel_get_rng |]. intros r.
  apply cache_rel_eq_bind; [apply cache_rel_lift |]. intros [p r'].
  apply cache_rel_eq_bind; [apply cache_rel_put_rng |]. intros _.
  apply cache_rel_eq_bind; [apply cache_rel_emit |]. intros _.
  apply cache_rel_ret.
Qed.

Lemma cache_rel_training cfg model (xs : ndarray_x) (ys : list Z) :
  cache_rel eq (training cfg model xs ys).
Proof.
  intros w r w' Hrun.
  destruct (String.eqb_spec (ACTION cfg) "predict") as [Hact | Hact].
  - destruct (fs w !! weights_file cfg) as [stored|] eqn:Hfile.
    + rewrite (training_cached _ _ _ _ _ stored Hact Hfile) in Hrun.
      by injection Hrun as _ <-.
    + rewrite training_trains in Hrun by by right. by injection Hrun as _ <-.
  - rewrite training_trains in Hrun by by left. by injection Hrun as _ <-.
Qed.

Lemma cache_rel_prediction cfg (voc : gmap string Z) model :
  cache_rel eq (prediction cfg voc model).
Proof.
  intros w r w'. unfold prediction. destruct (String.eqb _ _).
  - unfold_effects. destruct (format_sentence _ _ _ _) as [v|e]; simpl;
      [| by intros [= _ <-]].
    destruct (keras_predict model v); simpl; by intros [= _ <-].
  - unfold ret. by intros [= _ <-].
Qed.

(** What the dispatch on the variation does to the cache: the one write of
    [train_word2vec] for the two pretrained variations, nothing
    otherwise. *)
Lemma cache_rel_select_variation cfg (x : list (list Z)) (vinv : list string) :
  cache_rel
    (λ c c',
       c' = if String.eqb (model_variation cfg) "CNN-non-static"
               || String.eqb (model_variation cfg) "CNN-static"
            then train_word2vec_cache c x vinv (embedding_dim cfg)
                   (min_word_count cfg) (context cfg)
            else c)
    (select_variation cfg x vinv).
Proof.
  intros w r w'. unfold select_variation, call_train_word2vec.
  destruct (_ || _).
  - unfold_effects. simpl.
    destruct (train_word2vec (rng w) x vinv _ _ _) as [weights r0]. simpl.
    destruct (String.eqb _ _); [| by intros [= _ <-]].
    destruct (substitute_vectors weights x); by intros [= _ <-].
  - destruct (String.eqb _ _); by intros [= _ <-].
Qed.

Lemma cache_rel_main (R : w2v_store → w2v_store → Prop) cfg
    (x y : list (list Z)) (voc : gmap string Z) (vinv : list string) :
  (∀ c, R c c) →
  cache_rel R (select_variation cfg x vinv) →
  cache_rel R (main cfg (x, y, voc, vinv)).
Proof.
  intros Hrefl Hsel. unfold main.
  apply cache_rel_bind_l.
  2: { intros [p model].
       apply cache_rel_eq_bind; [apply cache_rel_training |]. intros model'.
       apply cache_rel_prediction. }
  unfold setup. apply cache_rel_bind_l.
  2: { intros p. apply cache_rel_eq_bind; [apply cache_rel_lift |]. intros g.
       apply cache_rel_eq_bind; [apply cache_rel_build_model |]. intros model.
       apply cache_rel_ret. }
  unfold data_preparation, load_data, print.
  apply cache_rel_bind; [done | apply cache_rel_put_rng |]. intros _.
  apply cache_rel_bind; [done | apply cache_rel_emit |]. intros _.
  apply cache_rel_bind; [done | apply cache_rel_emit |]. intros _.
  apply (cache_rel_bind_value R _ _ (x, y, voc, vinv)); [done | | |].
  { apply cache_rel_eq_bind; [apply cache_rel_emit |]. intros _.
    apply cache_rel_ret. }
  { intros w a w'. unfold bind, emit, ret. by intros [= <- _]. }
  apply cache_rel_bind_l; [exact Hsel |]. intros [x' ew].
  apply cache_rel_eq_bind; [apply cache_rel_shuffle_data |].
  intros [[idx xs] ys].
  apply cache_rel_eq_bind; [apply cache_rel_emit |]. intros _.
  apply cache_rel_ret.
Qed.

(** X11: whatever a run does and however it ends, the only weights file
    it can change is the one at [weights_file], and the embedding
    trainer's cache changes by at most the one write of [train_word2vec]:
    for 'CNN-rand', and for an unknown variation, the trainer is not
    called and its cache is left as it was. *)
Theorem X11_writes_are_confined_to_weights_file_and_trainer_cache
    cfg (x y : list (list Z)) (voc : gmap string Z) (vinv : list string)
    w (r : result unit) w' :
  main cfg (x, y, voc, vinv) w = (r, w') →
  (∀ path, path ≠ weights_file cfg → fs w' !! path = fs w !! path)
  ∧ (cache w' = cache w
     ∨ cache w' = train_word2vec_cache (cache w) x vinv (embedding_dim cfg)
                    (min_word_count cfg) (context cfg))
  ∧ (model_variation cfg ≠ "CNN-non-static" →
     model_variation cfg ≠ "CNN-static" →
     cache w' = cache w).
Proof.
  intros Hrun. split; [| split].
  - intros path Hpath. unfold main in Hrun. unfold bind at 1 in Hrun.
    destruct (setup cfg (x, y, voc, vinv) w) as [[[p model]|e] w1] eqn:Hsetup.
    + destruct (setup_quiet _ _ _ _ _ Hsetup) as [Hfs _].
      unfold bind in Hrun.
      destruct (training cfg model (x_shuffled p) (y_shuffled p) w1)
        as [[model'|e] w2] eqn:Htrain.
      * apply prediction_fs in Hrun. rewrite Hrun.
        rewrite (training_other_files _ _ _ _ _ _ _ _ Htrain Hpath).
        by rewrite Hfs.
      * injection Hrun as _ <-.
        rewrite (training_other_files _ _ _ _ _ _ _ _ Htrain Hpath).
        by rewrite Hfs.
    + injection Hrun as _ <-.
      destruct (setup_quiet _ _ _ _ _ Hsetup) as [Hfs _]. by rewrite Hfs.
  - assert (cache_rel
              (λ c c', c' = c
                       ∨ c' = train_word2vec_cache c x vinv (embedding_dim cfg)
                                (min_word_count cfg) (context cfg))
              (main cfg (x, y, voc, vinv))) as Hmain.
    { apply cache_rel_main; [intros c; by left |].
      intros w0 r0 w0' Hsel.
      pose proof (cache_rel_select_variation _ _ _ _ _ _ Hsel) as Hc.
      simpl in Hc. destruct (_ || _); [by right | by left]. }
    exact (Hmain _ _ _ Hrun).
  - intros Hn Hs.
    assert (cache_rel (λ c c', c' = c) (main cfg (x, y, voc, vinv))) as Hmain.
    { apply cache_rel_main; [done |].
      intros w0 r0 w0' Hsel.
      pose proof (cache_rel_select_variation _ _ _ _ _ _ Hsel) as Hc.
      simpl in Hc. apply String.eqb_neq in Hn, Hs. by rewrite Hn, Hs in Hc. }
    exact (Hmain _ _ _ Hrun).
Qed.

Lemma setup_reseed cfg (data : loaded_data) w :
  setup cfg data w
  = setup cfg data
      {| fs := fs w; cache := cache w; rng := seed_state 2; log := log w |}.
Proof.
  unfold setup. unfold bind at 1. unfold bind at 4.
  by rewrite (data_preparation_reseed cfg data w).
Qed.

(** The model a run sets up does not depend on the files or on the state
    of the generator the run starts with. *)
Lemma setup_outcome cfg (data : loaded_data) w1 w2 :
  (setup cfg data w1).1 = (setup cfg data w2).1.
Proof.
  rewrite (setup_reseed cfg data w1), (setup_reseed cfg data w2).
  apply framed_outcome; [apply framed_setup | done].
Qed.

Lemma quiet_events_no_fit (events : list event) :
  Forall (λ e, is_fit e = false ∧ is_predict e = false) events →
  existsb is_fit events = false.
Proof.
  induction 1 as [|e events [He _] _ IH]; simpl; [done |]. by rewrite He.
Qed.

(** X10: a run with action ["predict"] that found no weights file and
    completed has left the trained weights in the file; running the script
    again from there trains nothing, loads exactly those weights, leaves
    the files as they are, and queries the model on the same encoding with
    the same weights, so it prints the same verdict. *)
Theorem X10_second_run_reuses_the_weights_of_the_first
    cfg (data : loaded_data) w wA :
  ACTION cfg = "predict" →
  fs w !! weights_file cfg = None →
  main cfg data w = (Ok tt, wA) →
  ∃ (trained : model_params) v line before events wB,
    fs wA !! weights_file cfg = Some trained
    ∧ log wA = before ++ [EPredict trained v; EPrint line]
    ∧ main cfg data wA = (Ok tt, wB)
    ∧ fs wB = fs wA
    ∧ log wB = log wA ++ events
               ++ [ELoadWeights (weights_file cfg) trained;
                   EPredict trained v; EPrint line]
    ∧ existsb is_fit events = false.
Proof.
  intros Hact Hnone Hmain.
  destruct (setup cfg data w) as [[[p model]|e] w1] eqn:Hsetup; cycle 1.
  { unfold main in Hmain. unfold bind at 1 in Hmain. by rewrite Hsetup in Hmain. }
  destruct (setup_quiet _ _ _ _ _ Hsetup) as [Hfs _].
  destruct (keras_fit (rng w1) model (x_shuffled p) (y_shuffled p)
              (script_fit_args cfg)) as [trained r'] eqn:Hfit.
  rewrite (main_trains _ _ _ _ _ _ trained r' Hsetup) in Hmain
    by (done || (right; by rewrite Hfs)).
  rewrite prediction_predict in Hmain by done.
  destruct (format_sentence clean_str (vocabulary p) (sequence_length cfg)
              (sentence cfg)) as [v|e] eqn:Hv; [| discriminate].
  destruct (keras_predict (with_params model trained) v) as [probs|e] eqn:Hp;
    [| discriminate].
  injection Hmain as HwA.
  assert (fs wA !! weights_file cfg = Some trained) as Hstored.
  { rewrite <- HwA. simpl. apply lookup_insert_eq. }
  assert (log wA
          = (log w1 ++ [EFit (x_shuffled p) (y_shuffled p) trained;
                        EPrint "dumping weights to file...";
                        ESaveWeights (weights_file cfg) trained])
            ++ [EPredict trained v;
                EPrint (verdict_line (sentence cfg) (mood probs))]) as HlogA.
  { by rewrite <- HwA. }
  pose proof (setup_outcome cfg data w wA) as Hsame.
  rewrite Hsetup in Hsame. simpl in Hsame.
  destruct (setup cfg data wA) as [r2 w2] eqn:Hsetup2.
  simpl in Hsame. subst r2.
  destruct (setup_quiet _ _ _ _ _ Hsetup2) as [Hfs2 (events & Hlog2 & Hquiet)].
  exists trained, v, (verdict_line (sentence cfg) (mood probs)),
    (log w1 ++ [EFit (x_shuffled p) (y_shuffled p) trained;
                EPrint "dumping weights to file...";
                ESaveWeights (weights_file cfg) trained]),
    events.
  eexists. split; [exact Hstored |]. split; [exact HlogA |].
  rewrite (main_cached _ _ _ _ _ _ trained Hsetup2 Hact) by (by rewrite Hfs2).
  rewrite prediction_predict by done. rewrite Hv, Hp. simpl.
  split; [reflexivity |]. simpl. split; [exact Hfs2 |].
  split; [| exact (quiet_events_no_fit _ Hquiet)].
  rewrite Hlog2. by rewrite <- !app_assoc.
Qed.

End FurtherScriptProperties.


(** ** The shuffle keeps every pair *)

Lemma np_index_of_nat {A : Type} (a : list A) (k : nat) (v : A) :
  a !! k = Some v → np_index a (Z.of_nat k) = Ok v.
Proof.
  intros Hk. pose proof (lookup_lt_Some _ _ _ Hk) as Hlt.
  unfold np_index.
  destruct (Z.ltb_spec (Z.of_nat k) 0); [lia |].
  destruct (Z.leb_spec 0 (Z.of_nat k)); [| lia].
  destruct (Z.ltb_spec (Z.of_nat k) (Z.of_nat (length a))); [| lia].
  simpl. by rewrite Nat2Z.id, Hk.
Qed.

Lemma fancy_index_arange {A : Type} (a : list A) :
  fancy_index a (arange (length a)) = Ok a.
Proof.
  apply comprehension_ok. apply Forall2_same_length_lookup_2.
  - unfold arange. by rewrite length_fmap, length_seq.
  - intros i x v Hx Hv. unfold arange in Hx.
    rewrite list_lookup_fmap in Hx.
    destruct (seq 0 (length a) !! i) as [j|] eqn:Hj; [| done].
    apply lookup_seq in Hj as [-> _]. injection Hx as <-.
    by apply np_index_of_nat.
Qed.

Lemma Forall2_Permutation_l {A B : Type} (R : A → B → Prop)
    (al bl : list A) (cl : list B) :
  al ≡ₚ bl → Forall2 R al cl → ∃ dl, cl ≡ₚ dl ∧ Forall2 R bl dl.
Proof.
  intros Hperm. revert cl.
  induction Hperm as [|a al bl _ IH|a a' al|al bl cl' _ IH1 _ IH2]; intros cl Hcl.
  - inversion Hcl; subst. by exists [].
  - inversion Hcl as [|? c ? cl0 Hc Hrest]; subst.
    destruct (IH _ Hrest) as (dl & Hdl & Hbl).
    exists (c :: dl). split; [by constructor | by constructor].
  - inversion Hcl as [|? c ? cl0 Hc Hrest]; subst.
    inversion Hrest as [|? c' ? cl1 Hc' Hrest']; subst.
    exists (c' :: c :: cl1). split; [apply perm_swap |].
    by repeat constructor.
  - destruct (IH1 _ Hcl) as (dl & Hdl & Hbl).
    destruct (IH2 _ Hbl) as (el & Hel & Hcl').
    exists el. split; [by etrans | done].
Qed.

(** Indexing with a permutation of the row numbers permutes the rows. *)
Lemma fancy_index_permutation {A : Type} (a : list A) (idx : list Z) :
  idx ≡ₚ arange (length a) →
  ∃ rows, fancy_index a idx = Ok rows ∧ rows ≡ₚ a.
Proof.
  intros Hidx.
  pose proof (fancy_index_arange a) as Hall. apply comprehension_ok in Hall.
  symmetry in Hidx.
  destruct (Forall2_Permutation_l _ _ _ _ Hidx Hall) as (rows & Hrows & Hrun).
  exists rows. split; [by apply comprehension_ok | by symmetry].
Qed.

Lemma zip_fmap_fmap {A B C : Type} (f : A → B) (g : A → C) (l : list A) :
  zip (f <$> l) (g <$> l) = (λ a, (f a, g a)) <$> l.
Proof. induction l as [|a l IH]; csimpl; [done | by rewrite IH]. Qed.

Lemma zip_fmap_l {A B C : Type} (f : A → C) (l : list A) (k : list B) :
  zip (f <$> l) k = prod_map f id <$> zip l k.
Proof.
  revert k. induction l as [|a l IH]; intros [|b k]; csimpl; [done.. |].
  by rewrite IH.
Qed.

Lemma Forall_fmap_Forall2 {A B C : Type} (R : B → C → Prop) (f : A → B)
    (g : A → C) (l : list A) :
  Forall (λ a, R (f a) (g a)) l → Forall2 R (f <$> l) (g <$> l).
Proof. induction 1; csimpl; by constructor. Qed.

(** The three steps of lines 104-106 on plain rows. *)
Lemma shuffle_rows {A : Type} (rows : list A) (y : list (list Z))
    (labels : list Z) (idx : list Z) :
  length rows = length y →
  comprehension argmax y = Ok labels →
  idx ≡ₚ arange (length y) →
  ∃ rs yrows ys,
    fancy_index rows idx = Ok rs
    ∧ fancy_index y idx = Ok yrows
    ∧ comprehension argmax yrows = Ok ys
    ∧ zip rs ys ≡ₚ zip rows labels.
Proof.
  intros Hlen Hlabels Hidx.
  pose proof (comprehension_length _ _ _ Hlabels) as Hlen'.
  apply comprehension_ok in Hlabels.
  set (t := zip rows (zip y labels)).
  assert (length t = length y) as Hlen_t.
  { unfold t. rewrite !length_zip. lia. }
  assert (t.*1 = rows) as Hrows.
  { unfold t. apply fst_zip. rewrite length_zip. lia. }
  assert (t.*2 = zip y labels) as Hyl.
  { unfold t. apply snd_zip. rewrite length_zip. lia. }
  assert ((t.*2).*1 = y) as Hy.
  { rewrite Hyl. apply fst_zip. lia. }
  assert ((t.*2).*2 = labels) as Hl.
  { rewrite Hyl. apply snd_zip. lia. }
  assert (Forall (λ tr, argmax tr.2.1 = Ok tr.2.2) t) as Hargmax.
  { apply Forall_lookup. intros i [r [row label]] Hi. simpl.
    unfold t in Hi. apply lookup_zip_Some in Hi as [_ Hi].
    apply lookup_zip_Some in Hi as [Hrow Hlabel].
    by eapply (Forall2_lookup_lr _ _ _ _ _ _ Hlabels). }
  destruct (fancy_index_permutation t idx) as (ts & Hts & Hperm).
  { by rewrite Hlen_t. }
  exists (ts.*1), ((ts.*2).*1), ((ts.*2).*2).
  split.
  { rewrite <- Hrows, fancy_index_fmap, Hts. done. }
  split.
  { rewrite <- Hy, !fancy_index_fmap, Hts. done. }
  split.
  { apply comprehension_ok. rewrite <- !list_fmap_compose.
    apply (Forall_fmap_Forall2 (λ row label, argmax row = Ok label)).
    by rewrite Hperm. }
  rewrite <- Hrows, <- Hl. rewrite <- !list_fmap_compose.
  rewrite !zip_fmap_fmap. by rewrite Hperm.
Qed.

Section ShuffleProperties.
Context {E : Externals}.

(** X7: on data with as many sequences as labels and no empty label row,
    the shuffle succeeds, and the shuffled (sequence, label) pairs are a
    rearrangement of the original pairs: none is lost, duplicated or
    re-paired. *)
Theorem X7_shuffle_rearranges_the_pairs
    (x : ndarray_x) (y : list (list Z)) (w : World) :
  (∀ r a, (np_permutation r a).1 ≡ₚ a) →
  length (x_rows x) = length y →
  Forall (λ row, row ≠ []) y →
  ∃ idx xs ys w' labels,
    shuffle_data x y w = (Ok (idx, xs, ys), w')
    ∧ comprehension argmax y = Ok labels
    ∧ zip (x_rows xs) ys ≡ₚ zip (x_rows x) labels.
Proof.
  intros Hperm Hlen Hrows.
  destruct (comprehension_total argmax y) as [labels Hlabels].
  { eapply Forall_impl; [exact Hrows |]. intros [|v row] Hne; [done |].
    simpl. eauto. }
  unfold shuffle_data.
  cbv [bind ret lift emit get_rng put_rng np_random_permutation]. simpl.
  pose proof (Hperm (rng w) (arange (length y))) as Hidx.
  destruct (np_permutation (rng w) (arange (length y))) as [idx r']. simpl in *.
  destruct x as [rows | rows]; simpl in *; rewrite length_fmap in Hlen;
    destruct (shuffle_rows rows y labels idx Hlen Hlabels Hidx)
      as (rs & yrows & ys & Hrs & Hyrows & Hys & Hzip);
    rewrite Hrs, Hyrows, Hys; simpl;
    eexists _, _, _, _, labels; (split; [reflexivity |]); (split; [done |]);
    simpl; rewrite !zip_fmap_l; by rewrite Hzip.
Qed.

End ShuffleProperties.

(** ** The further properties on the small instance *)

Lemma X1_encoded_length_witness :
  ∃ row, [[0; 1; 3]] = [row]
         ∧ Z.of_nat (length row)
           = Z.max 3 (Z.of_nat (length (processed_sentence (λ s, s) "good movie")))
         ∧ (1 ≤ length row)%nat.
Proof.
  apply (X1_encoded_length_is_max_of_sequence_length_and_token_count
           (λ s, s) toy_vocabulary 3 "good movie" [[0; 1; 3]]).
  vm_compute. reflexivity.
Defined.

Lemma X2_all_tokens_known_witness :
  ∃ r, format_sentence (λ s, s) toy_vocabulary 3 "good movie" = Ok r.
Proof.
  destruct (X2_format_sentence_succeeds_iff_all_tokens_known
              (λ s, s) toy_vocabulary 3 "good movie") as [[_ H] _].
  apply H. repeat constructor; vm_compute; eauto.
Defined.

Lemma X3_injective_encoding_witness :
  new_sentence (λ s, s) 1 "good" = new_sentence (λ s, s) 0 "good".
Proof.
  apply (X3_encoding_is_injective_for_an_injective_vocabulary
           (λ s, s) {["good" := 0]} 1 0 "good" "good" [[0]]).
  - intros w1 w2 i [<- _]%lookup_singleton_Some [<- _]%lookup_singleton_Some.
    reflexivity.
  - vm_compute. reflexivity.
  - vm_compute. reflexivity.
Defined.

Lemma X5_empty_sentence_witness :
  format_sentence (λ s, s) toy_vocabulary 2 "" = Raise (KeyError "").
Proof.
  destruct (X5_empty_sentence_is_one_empty_token (λ s, s) toy_vocabulary 2 "")
    as (_ & _ & H); [reflexivity |].
  apply H. vm_compute. reflexivity.
Defined.

Lemma X6_empty_filter_sizes_witness :
  ∃ w',
    main (K:=toy_keras) (toy_no_width "CNN-rand" "predict") toy_data (toy_world ∅)
    = (Raise (IndexError "list index out of range"), w').
Proof.
  assert (data_preparation (toy_no_width "CNN-rand" "predict") toy_data
            (toy_world ∅) = toy_preparation_no_width) as Hprep
    by (vm_compute; reflexivity).
  unfold toy_preparation_no_width in Hprep.
  destruct (X6_empty_filter_sizes_raise_IndexError (K:=toy_keras)
              (toy_no_width "CNN-rand" "predict") eq_refl) as [_ H].
  eexists. exact (H _ _ _ _ Hprep).
Defined.

Lemma X7_shuffle_pairs_witness :
  ∃ idx xs ys w' labels,
    shuffle_data (E:=toy_externals) (IndexArray [[0; 1; 3]; [2; 1; 3]])
      [[0; 1]; [1; 0]] (toy_world ∅)
    = (Ok (idx, xs, ys), w')
    ∧ comprehension argmax [[0; 1]; [1; 0]] = Ok labels
    ∧ zip (x_rows xs) ys
      ≡ₚ zip (x_rows (E:=toy_externals) (IndexArray [[0; 1; 3]; [2; 1; 3]])) labels.
Proof.
  apply (X7_shuffle_rearranges_the_pairs (E:=toy_externals)).
  - intros r a. apply reverse_Permutation.
  - reflexivity.
  - repeat constructor; discriminate.
Defined.

Lemma X9_cached_run_witness :
  ∃ w',
    main (K:=toy_keras) (toy_config "CNN-rand" "predict") toy_data
      (toy_world toy_files)
    = (Ok tt, w')
    ∧ fs w' = toy_files.
Proof.
  assert (setup (K:=toy_keras) (toy_config "CNN-rand" "predict") toy_data
            (toy_world toy_files) = toy_setup_cached) as Hs
    by (vm_compute; reflexivity).
  unfold toy_setup_cached in Hs.
  destruct (X9_cached_run_predicts_with_the_stored_weights (K:=toy_keras)
              (toy_config "CNN-rand" "predict") toy_data (toy_world toy_files)
              _ _ _ (toy_params 5) Hs eq_refl) as [Hok _].
  { vm_compute. reflexivity. }
  eexists. split.
  - apply (Hok [[0; 1; 3]] (Finite (3 # 4)%Q)); vm_compute; reflexivity.
  - reflexivity.
Defined.

Lemma X10_second_run_witness :
  ∃ wA wB (trained : @model_params toy_externals),
    main (K:=toy_keras) (toy_config "CNN-rand" "predict") toy_data (toy_world ∅)
    = (Ok tt, wA)
    ∧ fs wA !! "models/weights_file" = Some trained
    ∧ main (K:=toy_keras) (toy_config "CNN-rand" "predict") toy_data wA
      = (Ok tt, wB)
    ∧ fs wB = fs wA.
Proof.
  assert (main (K:=toy_keras) (toy_config "CNN-rand" "predict") toy_data
            (toy_world ∅) = toy_first_run) as Hmain
    by (vm_compute; reflexivity).
  unfold toy_first_run in Hmain.
  assert (fs (toy_world ∅) !! weights_file (toy_config "CNN-rand" "predict")
          = None) as Hnone by (vm_compute; reflexivity).
  destruct (X10_second_run_reuses_the_weights_of_the_first (K:=toy_keras)
              (toy_config "CNN-rand" "predict") toy_data (toy_world ∅) _
              eq_refl Hnone Hmain)
    as (trained & v & line & before & events & wB & Hfile & _ & Hagain & Hfs & _).
  eexists _, wB, trained.
  split; [exact Hmain |]. split; [exact Hfile |]. split; [exact Hagain | exact Hfs].
Defined.

Lemma X11_confined_writes_witness :
  ∃ r w',
    main (K:=toy_keras) (toy_config "CNN-rand" "predict") toy_data (toy_world ∅)
    = (r, w')
    ∧ fs w' !! "corpus.txt" = fs (toy_world ∅) !! "corpus.txt"
    ∧ cache w' = cache (toy_world ∅).
Proof.
  assert (main (K:=toy_keras) (toy_config "CNN-rand" "predict") toy_data
            (toy_world ∅) = toy_first_run) as Hmain
    by (vm_compute; reflexivity).
  unfold toy_first_run in Hmain.
  destruct (X11_writes_are_confined_to_weights_file_and_trainer_cache
              (K:=toy_keras) (toy_config "CNN-rand" "predict")
              _ _ _ _ (toy_world ∅) _ _ Hmain) as (Hfs & _ & Hcache).
  eexists _, _. split; [exact Hmain |]. split.
  - apply (Hfs "corpus.txt"). discriminate.
  - apply Hcache; discriminate.
Defined.

Lemma X12_substitution_shape_witness :
  ∃ vectors,
    @substitute_vectors toy_externals [[10; 20]] [[0; 1]; [1]] = Ok vectors
    ∧ length vectors = 2%nat.
Proof.
  assert (@substitute_vectors toy_externals [[10; 20]] [[0; 1]; [1]]
          = Ok [[10; 20]; [20]]) as H by reflexivity.
  destruct (X12_substitute_vectors_keeps_the_shape (E:=toy_externals)
              [[0; 1]; [1]]) as [_ Hshape].
  destruct (Hshape _ _ H) as [Hlen _].
  eexists. split; [exact H | exact Hlen].
Defined.
